(** * cb-event-forwarder: the network output sink ([pkg/outputs/net_output.go])

    A shallow embedding of [NetOutput] and its methods, followed by the
    properties of the output delivery subsystem that concern the network
    sink: drop policy, connection specification parsing, the reconnection
    state machine, framing and the dry-run flag.

    Conventions of the embedding:
    - a Go [string] is a [string] of bytes; [int64] is a [Z] with the
      two's-complement wrap-around written out ([Int64.wrap]);
    - [time.Time] is a [Z] count of nanoseconds elapsed since the zero
      [time.Time], so that the zero value of the struct field is [0];
    - the transport ([net.Dial], [Conn.Write], [Conn.Close]) and the clock are
      outside the program: their answers come from an environment [Env], and
      every call the program makes to them, every log line and the start of
      the background goroutine are recorded in a trace of [Event]s; a
      reconnect check reads the clock twice, before and after its dial, and
      the environment has a reading for each;
    - a Go run-time panic (index out of range, nil dereference) is an outcome
      of its own, distinct from a returned [error];
    - each method body is run sequentially; the embedded [sync.RWMutex] only
      serialises whole method bodies and is not represented. *)

From Stdlib Require Import ZArith String Ascii List Bool Lia.
Import ListNotations.

Local Open Scope Z_scope.

(** ** Go's [strings] package, as far as [Initialize] uses it *)

Module GoStrings.

Definition len (s : string) : nat := String.length s.

(** [strings.HasPrefix(s, prefix)]. *)
Definition HasPrefix (s prefix : string) : bool := String.prefix prefix s.

(** [strings.Index(s, sep)]: position of the first occurrence of [sep] in
    [s]; Go's [-1] is [None]. *)
Fixpoint Index (s sep : string) : option nat :=
  if String.prefix sep s then Some 0%nat
  else match s with
       | EmptyString => None
       | String _ s' => option_map S (Index s' sep)
       end.

(** The loop of [genSplit]: at most [fuel] cuts, the remainder is the last
    element. The slices [s[:m]] and [s[m+len(sep):]] are [substring]s. *)
Fixpoint genSplit (fuel : nat) (s sep : string) : list string :=
  match fuel with
  | O => [s]
  | S k =>
      match Index s sep with
      | None => [s]
      | Some m =>
          substring 0 m s
            :: genSplit k (substring (m + len sep) (len s - (m + len sep)) s) sep
      end
  end.

(** [strings.SplitN(s, sep, n)] for a non-empty separator and [n >= 0]:
    [n == 0] gives no element; otherwise [n] is capped at [len(s)+1] and at
    most [n-1] cuts are made. *)
Definition SplitN (s sep : string) (n : nat) : list string :=
  match n with
  | O => []
  | S _ => genSplit (Nat.min n (len s + 1) - 1) s sep
  end.

End GoStrings.

(** ** [int64] arithmetic *)

Module Int64.

Definition min_int : Z := - 2 ^ 63.
Definition max_int : Z := 2 ^ 63 - 1.

Definition in_range (z : Z) : Prop := min_int <= z <= max_int.

Definition wrap (z : Z) : Z := (z + 2 ^ 63) mod 2 ^ 64 - 2 ^ 63.

Definition add (x y : Z) : Z := wrap (x + y).
Definition sub (x y : Z) : Z := wrap (x - y).

End Int64.

(** ** [time] *)

Definition Time := Z.
Definition Duration := Z.

Definition Nanosecond : Duration := 1.
Definition Second : Duration := 1000000000 * Nanosecond.

Definition Time_Add (t : Time) (d : Duration) : Time := t + d.

(** [t.After(u)]. *)
Definition Time_After (t u : Time) : bool := u <? t.

(** ** Data model *)

(** Modelled from the spec: the [Configuration] struct of [pkg/config] is not
    part of the sources at hand; the sink reads its [DryRun] flag only (spec
    section 6, "Dry-run mode"). *)
Record Configuration := { DryRun : bool }.

(** A [net.Conn] value held by the sink: the descriptor the dialer returned
    and whether [Close] has been called on it. *)
Record Conn := { fd : nat; closed : bool }.

Inductive error :=
| NetError (msg : string)
    (* an error value produced by the [net] package *)
| ConnectError (netConn : string) (cause : error)
    (* [fmt.Errorf("Error connecting to '%s': %s", netConn, err)] *)
| SocketNotOpen.
    (* [errors.New("Output socket not open")] *)

Record NetOutput := {
  netConn : string;
  remoteHostname : string;
  protocolName : string;
  outputSocket : option Conn;        (* [None] is the nil interface value *)
  addNewline : bool;
  connectTime : Time;
  reconnectTime : Time;
  connected : bool;
  droppedEventCount : Z;             (* int64 *)
  droppedEventSinceConnection : Z;   (* int64 *)
  Config : option Configuration      (* [None] is the nil pointer *)
}.

Record NetStatistics := {
  LastOpenTime : Time;
  Protocol : string;
  RemoteHostname : string;
  DroppedEventCount : Z;
  Connected : bool
}.

(** [&NetOutput{Config: cfg}]: every other field has its zero value. *)
Definition NewNetOutputfromConfig (cfg : option Configuration) : NetOutput :=
  {| netConn := ""; remoteHostname := ""; protocolName := "";
     outputSocket := None; addNewline := false;
     connectTime := 0; reconnectTime := 0; connected := false;
     droppedEventCount := 0; droppedEventSinceConnection := 0;
     Config := cfg |}.

(** Field assignments. *)

Definition set_netConn (v : string) (o : NetOutput) : NetOutput :=
  {| netConn := v; remoteHostname := remoteHostname o;
     protocolName := protocolName o; outputSocket := outputSocket o;
     addNewline := addNewline o; connectTime := connectTime o;
     reconnectTime := reconnectTime o; connected := connected o;
     droppedEventCount := droppedEventCount o;
     droppedEventSinceConnection := droppedEventSinceConnection o;
     Config := Config o |}.

Definition set_remoteHostname (v : string) (o : NetOutput) : NetOutput :=
  {| netConn := netConn o; remoteHostname := v;
     protocolName := protocolName o; outputSocket := outputSocket o;
     addNewline := addNewline o; connectTime := connectTime o;
     reconnectTime := reconnectTime o; connected := connected o;
     droppedEventCount := droppedEventCount o;
     droppedEventSinceConnection := droppedEventSinceConnection o;
     Config := Config o |}.

Definition set_protocolName (v : string) (o : NetOutput) : NetOutput :=
  {| netConn := netConn o; remoteHostname := remoteHostname o;
     protocolName := v; outputSocket := outputSocket o;
     addNewline := addNewline o; connectTime := connectTime o;
     reconnectTime := reconnectTime o; connected := connected o;
     droppedEventCount := droppedEventCount o;
     droppedEventSinceConnection := droppedEventSinceConnection o;
     Config := Config o |}.

Definition set_outputSocket (v : option Conn) (o : NetOutput) : NetOutput :=
  {| netConn := netConn o; remoteHostname := remoteHostname o;
     protocolName := protocolName o; outputSocket := v;
     addNewline := addNewline o; connectTime := connectTime o;
     reconnectTime := reconnectTime o; connected := connected o;
     droppedEventCount := droppedEventCount o;
     droppedEventSinceConnection := droppedEventSinceConnection o;
     Config := Config o |}.

Definition set_addNewline (v : bool) (o : NetOutput) : NetOutput :=
  {| netConn := netConn o; remoteHostname := remoteHostname o;
     protocolName := protocolName o; outputSocket := outputSocket o;
     addNewline := v; connectTime := connectTime o;
     reconnectTime := reconnectTime o; connected := connected o;
     droppedEventCount := droppedEventCount o;
     droppedEventSinceConnection := droppedEventSinceConnection o;
     Config := Config o |}.

Definition set_connectTime (v : Time) (o : NetOutput) : NetOutput :=
  {| netConn := netConn o; remoteHostname := remoteHostname o;
     protocolName := protocolName o; outputSocket := outputSocket o;
     addNewline := addNewline o; connectTime := v;
     reconnectTime := reconnectTime o; connected := connected o;
     droppedEventCount := droppedEventCount o;
     droppedEventSinceConnection := droppedEventSinceConnection o;
     Config := Config o |}.

Definition set_reconnectTime (v : Time) (o : NetOutput) : NetOutput :=
  {| netConn := netConn o; remoteHostname := remoteHostname o;
     protocolName := protocolName o; outputSocket := outputSocket o;
     addNewline := addNewline o; connectTime := connectTime o;
     reconnectTime := v; connected := connected o;
     droppedEventCount := droppedEventCount o;
     droppedEventSinceConnection := droppedEventSinceConnection o;
     Config := Config o |}.

Definition set_connected (v : bool) (o : NetOutput) : NetOutput :=
  {| netConn := netConn o; remoteHostname := remoteHostname o;
     protocolName := protocolName o; outputSocket := outputSocket o;
     addNewline := addNewline o; connectTime := connectTime o;
     reconnectTime := reconnectTime o; connected := v;
     droppedEventCount := droppedEventCount o;
     droppedEventSinceConnection := droppedEventSinceConnection o;
     Config := Config o |}.

Definition set_droppedEventCount (v : Z) (o : NetOutput) : NetOutput :=
  {| netConn := netConn o; remoteHostname := remoteHostname o;
     protocolName := protocolName o; outputSocket := outputSocket o;
     addNewline := addNewline o; connectTime := connectTime o;
     reconnectTime := reconnectTime o; connected := connected o;
     droppedEventCount := v;
     droppedEventSinceConnection := droppedEventSinceConnection o;
     Config := Config o |}.

Definition set_droppedEventSinceConnection (v : Z) (o : NetOutput) : NetOutput :=
  {| netConn := netConn o; remoteHostname := remoteHostname o;
     protocolName := protocolName o; outputSocket := outputSocket o;
     addNewline := addNewline o; connectTime := connectTime o;
     reconnectTime := reconnectTime o; connected := connected o;
     droppedEventCount := droppedEventCount o;
     droppedEventSinceConnection := v;
     Config := Config o |}.

Definition set_Config (v : option Configuration) (o : NetOutput) : NetOutput :=
  {| netConn := netConn o; remoteHostname := remoteHostname o;
     protocolName := protocolName o; outputSocket := outputSocket o;
     addNewline := addNewline o; connectTime := connectTime o;
     reconnectTime := reconnectTime o; connected := connected o;
     droppedEventCount := droppedEventCount o;
     droppedEventSinceConnection := droppedEventSinceConnection o;
     Config := v |}.

(** ** The outside world: environment and trace *)

(** What the transport and the clock answer during one method call. *)
Record Env := {
  now : Time;                                   (* [time.Now()] *)
  dial : string -> string -> nat + error;       (* [net.Dial(network, address)] *)
  write : nat -> string -> option error;        (* [Conn.Write] on an open descriptor *)
  now_after_dial : Time
    (* [time.Now()] when a reconnect check reads the clock again, once the
       [net.Dial] it made has returned *)
}.

(** The environment of a reconnect check once its dial has returned: the
    clock gives its second reading. *)
Definition after_dial (env : Env) : Env :=
  {| now := now_after_dial env;
     dial := dial env;
     write := write env;
     now_after_dial := now_after_dial env |}.

Inductive InfoLog :=
| LogConnected (netConn : string) (at_ : Time)
    (* "Connected to %s at %s." *)
| LogDropped (n : Z)
    (* "Dropped %d events since the last reconnection." *)
| LogLostConnection (netConn : string) (retry_at : Time)
    (* "Lost connection to %s. Will try to reconnect at %s." *)
| LogSigterm.
    (* "Net output handling SIGTERM" *)

Inductive Event :=
| EvDial (network address : string)
| EvClose (fd : nat)
| EvWrite (fd : nat) (bytes : string)
| EvLogInfo (l : InfoLog)
| EvLogError (e : error)
| EvSpawn          (* [go func() { ... }()] *)
| EvTickerStop     (* the deferred [refreshTicker.Stop()] *)
| EvExitSignal.    (* the deferred [exitCond.Signal()] *)

Inductive PanicKind := IndexOutOfRange | NilDereference.

Inductive Res (A : Type) :=
| Ok (a : A)
| Panic (p : PanicKind).
Arguments Ok {A} a.
Arguments Panic {A} p.

Record Outcome (A : Type) := {
  result : Res A;
  final : NetOutput;
  events : list Event
}.
Arguments result {A} _.
Arguments final {A} _.
Arguments events {A} _.

(** ** A monad for method bodies: reader of [Env], state [NetOutput], writer
    of [Event]s, with panics. *)

Definition M (A : Type) : Type := Env -> NetOutput -> Outcome A.

Definition ret {A} (a : A) : M A :=
  fun _ o => {| result := Ok a; final := o; events := [] |}.

Definition bind {A B} (m : M A) (f : A -> M B) : M B :=
  fun env o =>
    match m env o with
    | {| result := Ok a; final := o1; events := t1 |} =>
        match f a env o1 with
        | {| result := b; final := o2; events := t2 |} =>
            {| result := b; final := o2; events := t1 ++ t2 |}
        end
    | {| result := Panic p; final := o1; events := t1 |} =>
        {| result := Panic p; final := o1; events := t1 |}
    end.

Definition get : M NetOutput :=
  fun _ o => {| result := Ok o; final := o; events := [] |}.

Definition modify (f : NetOutput -> NetOutput) : M unit :=
  fun _ o => {| result := Ok tt; final := f o; events := [] |}.

Definition ask : M Env :=
  fun env o => {| result := Ok env; final := o; events := [] |}.

Definition emit (e : Event) : M unit :=
  fun _ o => {| result := Ok tt; final := o; events := [e] |}.

Definition panic {A} (p : PanicKind) : M A :=
  fun _ o => {| result := Panic p; final := o; events := [] |}.

(** Run [m] in the environment [f env]. *)
Definition local {A} (f : Env -> Env) (m : M A) : M A :=
  fun env o => m (f env) o.

Declare Scope go_scope.
Delimit Scope go_scope with go.
Notation "x <- m ;; k" := (bind m (fun x => k))
  (at level 61, m at next level, right associativity) : go_scope.
Notation "m ;; k" := (bind m (fun _ => k))
  (at level 61, right associativity) : go_scope.
Local Open Scope go_scope.

(** ** Library calls *)

Definition time_Now : M Time :=
  env <- ask ;; ret (now env).

(** [net.Dial]: the connection on success, the nil interface and the error on
    failure. *)
Definition net_Dial (network address : string) : M (option Conn * option error) :=
  env <- ask ;;
  emit (EvDial network address) ;;
  match dial env network address with
  | inl d => ret (Some {| fd := d; closed := false |}, None)
  | inr e => ret (None, Some e)
  end.

(** [o.outputSocket.Close()]; the returned error is ignored by every caller. *)
Definition outputSocket_Close : M unit :=
  o <- get ;;
  match outputSocket o with
  | None => panic NilDereference
  | Some c =>
      emit (EvClose (fd c)) ;;
      modify (set_outputSocket (Some {| fd := fd c; closed := true |}))
  end.

(** [o.outputSocket.Write([]byte(m))]: the error part of the result. A closed
    connection refuses the write. *)
Definition outputSocket_Write (m : string) : M (option error) :=
  o <- get ;;
  env <- ask ;;
  match outputSocket o with
  | None => panic NilDereference
  | Some c =>
      emit (EvWrite (fd c) m) ;;
      if closed c then ret (Some (NetError "use of closed network connection"))
      else ret (write env (fd c) m)
  end.

(** [s[i]] on a slice of strings. *)
Definition slice_index (l : list string) (i : nat) : M string :=
  match nth_error l i with
  | Some s => ret s
  | None => panic IndexOutOfRange
  end.

(** ** The methods of [NetOutput] *)

Definition CRLF : string :=
  String (ascii_of_nat 13) (String (ascii_of_nat 10) EmptyString).

Definition markConnected : M unit :=
  t <- time_Now ;;
  modify (set_connectTime t) ;;
  o <- get ;;
  emit (EvLogInfo (LogConnected (netConn o) (connectTime o))) ;;
  modify (set_connected true) ;;
  o <- get ;;
  if negb (droppedEventCount o =? droppedEventSinceConnection o) then
    emit (EvLogInfo (LogDropped
            (Int64.sub (droppedEventCount o) (droppedEventSinceConnection o)))) ;;
    modify (set_droppedEventSinceConnection (droppedEventCount o))
  else ret tt.

Definition Initialize (netConn_arg : string) : M (option error) :=
  o <- get ;;
  (if connected o then outputSocket_Close else ret tt) ;;
  modify (set_netConn netConn_arg) ;;
  let connSpecification := GoStrings.SplitN netConn_arg ":" 2 in
  p <- slice_index connSpecification 0 ;;
  modify (set_protocolName p) ;;
  h <- slice_index connSpecification 1 ;;
  modify (set_remoteHostname h) ;;
  o <- get ;;
  (if GoStrings.HasPrefix (protocolName o) "tcp"
   then modify (set_addNewline true) else ret tt) ;;
  o <- get ;;
  r <- net_Dial (protocolName o) (remoteHostname o) ;;
  modify (set_outputSocket (fst r)) ;;
  match snd r with
  | Some err => ret (Some (ConnectError netConn_arg err))
  | None => markConnected ;; ret None
  end.

Definition closeAndScheduleReconnection : M unit :=
  o <- get ;;
  (if connected o
   then outputSocket_Close ;; modify (set_connected false)
   else ret tt) ;;
  t <- time_Now ;;
  modify (set_reconnectTime (Time_Add t (5 * Second))) ;;
  o <- get ;;
  emit (EvLogInfo (LogLostConnection (netConn o) (reconnectTime o))).

Definition Key (o : NetOutput) : string := netConn o.

(** The [String] method; the name [String] is the constructor of [string]. *)
Definition String_ (o : NetOutput) : string := netConn o.

Definition Statistics (o : NetOutput) : NetStatistics :=
  {| LastOpenTime := connectTime o;
     Protocol := protocolName o;
     RemoteHostname := remoteHostname o;
     DroppedEventCount := droppedEventCount o;
     Connected := connected o |}.

Definition output (m : string) : M (option error) :=
  o <- get ;;
  let m := if addNewline o then String.append m CRLF else m in
  if negb (connected o) then
    modify (fun o => set_droppedEventCount (Int64.add (droppedEventCount o) 1) o) ;;
    ret None
  else
    err <- outputSocket_Write m ;;
    match err with
    | Some _ => closeAndScheduleReconnection
    | None => ret tt
    end ;;
    ret err.

(** ** [Go] and its control loop *)

Inductive Signal := SIGTERM | SIGINT | SIGHUP | SIGUSR1.

(** What the [select] of one loop iteration received. *)
Inductive Received :=
| RecvMessage (message : string)
| RecvTick
| RecvSignal (signal : Signal).

(** [o.Config.DryRun]. *)
Definition Config_DryRun : M bool :=
  o <- get ;;
  match Config o with
  | None => panic NilDereference
  | Some cfg => ret (DryRun cfg)
  end.

(** One iteration of the [for { select { ... } }] loop; [true] when the
    goroutine returns. On a tick the guard reads the clock first; the
    [time.Now()] of [markConnected] or of [closeAndScheduleReconnection] is a
    later reading, taken after [net.Dial] has returned. *)
Definition loop_iteration (r : Received) : M bool :=
  match r with
  | RecvMessage message =>
      err <- output message ;;
      match err with
      | Some e =>
          dry <- Config_DryRun ;;
          if negb dry then emit (EvLogError e) else ret tt
      | None => ret tt
      end ;;
      ret false
  | RecvTick =>
      o <- get ;;
      t <- time_Now ;;
      (if negb (connected o) && Time_After t (reconnectTime o) then
         local after_dial
           (err <- Initialize (netConn o) ;;
            match err with
            | Some _ => closeAndScheduleReconnection
            | None => ret tt
            end)
       else ret tt) ;;
      ret false
  | RecvSignal signal =>
      match signal with
      | SIGTERM | SIGINT => emit (EvLogInfo LogSigterm) ;; ret true
      | _ => ret false
      end
  end.

(** [Go]: the guard on the socket, then the goroutine is started and the
    method returns. The three parameters of [Go] are used by the goroutine
    only: see [goroutine], which takes [exitCond] and the receptions of the
    two channels. *)
Definition Go : M (option error) :=
  o <- get ;;
  match outputSocket o with
  | None => ret (Some SocketNotOpen)
  | Some _ => emit EvSpawn ;; ret None
  end.

(** The [for] loop of the goroutine over the successive receptions of its
    [select], each with the environment of that moment. [Ok false]: the
    receptions are exhausted and the loop is blocked in [select]; [Ok true]:
    the [return] of the signal case was reached. The deferred calls of the
    goroutine are in [goroutine] below. *)
Fixpoint loop (rs : list (Env * Received)) (o : NetOutput) : Outcome bool :=
  match rs with
  | [] => {| result := Ok false; final := o; events := [] |}
  | (env, r) :: rs' =>
      match loop_iteration r env o with
      | {| result := Ok false; final := o1; events := t1 |} =>
          match loop rs' o1 with
          | {| result := b; final := o2; events := t2 |} =>
              {| result := b; final := o2; events := t1 ++ t2 |}
          end
      | s => s
      end
  end.

(** The [*sync.Cond] that [Go] is given as [exitCond]. *)
Definition Cond := nat.

(** The two deferred calls, run in reverse order of their [defer] when the
    goroutine returns or panics: [refreshTicker.Stop()], then
    [exitCond.Signal()], which dereferences [exitCond]. *)
Definition deferred_calls (exitCond : option Cond) (s : Outcome bool) : Outcome bool :=
  match exitCond with
  | Some _ =>
      {| result := result s; final := final s;
         events := events s ++ [EvTickerStop; EvExitSignal] |}
  | None =>
      {| result := Panic NilDereference; final := final s;
         events := events s ++ [EvTickerStop] |}
  end.

(** The function literal that [Go] starts, with the [exitCond] it was given
    ([None] is the nil pointer) and the receptions of its channels: the loop,
    then the deferred calls unless the loop is still blocked in [select]. *)
Definition goroutine (exitCond : option Cond) (rs : list (Env * Received))
    (o : NetOutput) : Outcome bool :=
  match loop rs o with
  | {| result := Ok false; final := o1; events := t1 |} =>
      {| result := Ok false; final := o1; events := t1 |}
  | s => deferred_calls exitCond s
  end.

(** ** Vocabulary of the properties *)

(** The bytes [output] hands to the transport for message [m]. *)
Definition framed (o : NetOutput) (m : string) : string :=
  if addNewline o then String.append m CRLF else m.

(** The error part of [Conn.Write] on a connection value. *)
Definition Conn_Write (env : Env) (c : Conn) (bytes : string) : option error :=
  if closed c then Some (NetError "use of closed network connection")
  else write env (fd c) bytes.

(** The transport handle is valid: non-nil and not closed. *)
Definition handle_valid (o : NetOutput) : Prop :=
  exists c, outputSocket o = Some c /\ closed c = false.

(** The data-model invariant of the spec. *)
Definition connected_implies_valid (o : NetOutput) : Prop :=
  connected o = true -> handle_valid o.

(** [Initialize] closes the previous socket only when [connected]; that call
    is a nil dereference when the handle is nil. *)
Definition close_is_safe (o : NetOutput) : Prop :=
  connected o = true -> outputSocket o <> None.

Definition is_write (e : Event) : bool :=
  match e with EvWrite _ _ => true | _ => false end.

Definition is_dial (e : Event) : bool :=
  match e with EvDial _ _ => true | _ => false end.

Definition is_error_log (e : Event) : bool :=
  match e with EvLogError _ => true | _ => false end.

(** The writes of a trace, in order. *)
Definition writes (tr : list Event) : list Event := filter is_write tr.

(** A trace without its error-log lines. *)
Definition without_error_log (tr : list Event) : list Event :=
  filter (fun e => negb (is_error_log e)) tr.

(** The sink after the first statement of [Initialize] (the previous socket
    is closed when the sink is connected), and the trace of that statement. *)
Definition previous_closed (o : NetOutput) : NetOutput :=
  match connected o, outputSocket o with
  | true, Some c => set_outputSocket (Some {| fd := fd c; closed := true |}) o
  | _, _ => o
  end.

Definition previous_close_events (o : NetOutput) : list Event :=
  match connected o, outputSocket o with
  | true, Some c => [EvClose (fd c)]
  | _, _ => []
  end.

(** The sink once [Initialize] has stored the specification, its two parts
    and the framing flag, just before it dials. *)
Definition before_dial (spec p h : string) (o : NetOutput) : NetOutput :=
  let o1 :=
    set_remoteHostname h (set_protocolName p (set_netConn spec (previous_closed o))) in
  if GoStrings.HasPrefix p "tcp" then set_addNewline true o1 else o1.

(** The effect of [markConnected] on the fields, and its log lines. *)
Definition marked (t : Time) (o : NetOutput) : NetOutput :=
  let o1 := set_connected true (set_connectTime t o) in
  if droppedEventCount o =? droppedEventSinceConnection o then o1
  else set_droppedEventSinceConnection (droppedEventCount o) o1.

Definition marked_events (t : Time) (o : NetOutput) : list Event :=
  EvLogInfo (LogConnected (netConn o) t)
    :: (if droppedEventCount o =? droppedEventSinceConnection o then []
        else [EvLogInfo (LogDropped
                (Int64.sub (droppedEventCount o) (droppedEventSinceConnection o)))]).

(** The effect of [closeAndScheduleReconnection] on a sink whose handle is
    not nil. *)
Definition rescheduled (t : Time) (o : NetOutput) : NetOutput :=
  set_reconnectTime (Time_Add t (5 * Second))
    (if connected o then set_connected false (previous_closed o) else o).

(** ** Sample environments and sinks *)

(** A listener is present: every dial yields descriptor 3, every write
    succeeds. The clock reads 1000 ns, and 1500 ns after a dial. *)
Definition env_up : Env :=
  {| now := 1000;
     dial := fun _ _ => inl 3%nat;
     write := fun _ _ => None;
     now_after_dial := 1500 |}.

(** No listener: every dial is refused and every write fails. The clock
    reads 2000 ns, and 2700 ns after a dial. *)
Definition env_down : Env :=
  {| now := 2000;
     dial := fun _ _ => inr (NetError "connection refused");
     write := fun _ _ => Some (NetError "broken pipe");
     now_after_dial := 2700 |}.

Definition sink_new : NetOutput :=
  NewNetOutputfromConfig (Some {| DryRun := false |}).

(** A sink connected over tcp, and one connected over udp. *)
Definition sink_tcp : NetOutput :=
  final (Initialize "tcp:127.0.0.1:9999" env_up sink_new).

Definition sink_udp : NetOutput :=
  final (Initialize "udp:127.0.0.1:9999" env_up sink_new).

(** A sink whose first dial was refused and which has since been offered two
    messages. *)
Definition sink_dropped : NetOutput :=
  final (output "event 2" env_down
    (final (output "event 1" env_down
      (final (Initialize "tcp:127.0.0.1:9999" env_down sink_new))))).

(** A sink that was connected over tcp and whose next dial was refused. *)
Definition sink_redial_refused : NetOutput :=
  final (Initialize "tcp:127.0.0.1:9999" env_down sink_tcp).

(** A sink that was connected over tcp, lost the connection on a failed
    write, and whose reconnection dial was refused. *)
Definition sink_lost_then_refused : NetOutput :=
  final (Initialize "tcp:127.0.0.1:9999" env_down
    (final (output "event" env_down sink_tcp))).

(** A sink connected over tcp and then initialized again over udp. *)
Definition sink_tcp_then_udp : NetOutput :=
  final (Initialize "udp:127.0.0.1:9999" env_up sink_tcp).

(** A disconnected sink whose drop counter has reached the largest [int64]. *)
Definition sink_counter_max : NetOutput :=
  set_droppedEventCount Int64.max_int sink_new.

(** ** Vocabulary of the loop properties *)

(** The receptions of a sequence of messages, each with the environment of
    the moment it is received. *)
Definition messages (ems : list (Env * string)) : list (Env * Received) :=
  map (fun em => (fst em, RecvMessage (snd em))) ems.

(** The two cases of the [switch] on the received signal. *)
Definition is_termination (sg : Signal) : bool :=
  match sg with
  | SIGTERM | SIGINT => true
  | _ => false
  end.

Definition is_message (r : Env * Received) : bool :=
  match snd r with
  | RecvMessage _ => true
  | _ => false
  end.

(** Number of messages received in a run. *)
Definition message_count (rs : list (Env * Received)) : nat :=
  List.length (filter is_message rs).

Definition is_close (e : Event) : bool :=
  match e with EvClose _ => true | _ => false end.

(** The stored specification has the form [p:h], [p] without colon. *)
Definition has_target (o : NetOutput) : Prop :=
  exists p h, GoStrings.Index p ":" = None /\
              netConn o = String.append p (String ":" h).

(** What the control loop needs of the sink it is started on: the data-model
    invariant, a configuration, and a specification it can parse again. *)
Definition loop_ready (o : NetOutput) : Prop :=
  connected_implies_valid o /\ Config o <> None /\ has_target o.

(** Environments like [env_up] and [env_down] with the clock at [t], and
    500 ns, respectively 700 ns, later after a dial. *)
Definition env_up_at (t : Time) : Env :=
  {| now := t; dial := dial env_up; write := write env_up;
     now_after_dial := t + 500 |}.

Definition env_down_at (t : Time) : Env :=
  {| now := t; dial := dial env_down; write := write env_down;
     now_after_dial := t + 700 |}.

(** A sink that was connected over tcp and lost the connection on a failed
    write at 2000 ns. *)
Definition sink_lost : NetOutput :=
  final (output "event" env_down sink_tcp).

(** ** Sinks the code can reach *)

(** The calls that change a sink: the methods, and one iteration of the
    goroutine's loop. *)
Inductive Call :=
| CallInitialize (spec : string)
| CallOutput (m : string)
| CallCloseAndScheduleReconnection
| CallGo
| CallLoopIteration (r : Received).

(** The sink a call leaves behind, whatever it returns. *)
Definition after_call (c : Call) (env : Env) (o : NetOutput) : NetOutput :=
  match c with
  | CallInitialize spec => final (Initialize spec env o)
  | CallOutput m => final (output m env o)
  | CallCloseAndScheduleReconnection =>
      final (closeAndScheduleReconnection env o)
  | CallGo => final (Go env o)
  | CallLoopIteration r => final (loop_iteration r env o)
  end.

Fixpoint after_calls (cs : list (Env * Call)) (o : NetOutput) : NetOutput :=
  match cs with
  | [] => o
  | (env, c) :: cs' => after_calls cs' (after_call c env o)
  end.

(** ** Facts about strings and [SplitN] *)

Section SplitFacts.

Import GoStrings.

Lemma substring_all (s : string) : substring 0 (String.length s) s = s.
Proof.
  induction s as [|a s IH]; cbn; [reflexivity|].
  now rewrite IH.
Qed.

Lemma substring_head (p x : string) :
  substring 0 (String.length p) (String.append p x) = p.
Proof.
  induction p as [|a p IH]; cbn.
  - destruct x; reflexivity.
  - now rewrite IH.
Qed.

Lemma substring_skip (p x : string) (n : nat) :
  substring (String.length p) n (String.append p x) = substring 0 n x.
Proof.
  induction p as [|a p IH]; cbn; [reflexivity|exact IH].
Qed.

Lemma length_append (p x : string) :
  String.length (String.append p x) = (String.length p + String.length x)%nat.
Proof.
  induction p as [|a p IH]; cbn; [reflexivity|now rewrite IH].
Qed.

Lemma prefix_colon (a : ascii) (s : string) :
  String.prefix ":" (String a s) = if ascii_dec ":" a then true else false.
Proof.
  cbn [String.prefix]. destruct (ascii_dec ":" a); [|reflexivity].
  destruct s; reflexivity.
Qed.

(** The first colon of [p ++ ":" ++ r] is at [len p] when [p] has none. *)
Lemma Index_first_colon (p r : string) :
  Index p ":" = None ->
  Index (String.append p (String ":" r)) ":" = Some (String.length p).
Proof.
  induction p as [|a p IH]; intros Hp.
  - cbn. destruct r; reflexivity.
  - change (String.append (String a p) (String ":" r))
      with (String a (String.append p (String ":" r))).
    cbn [Index] in *. rewrite prefix_colon in *.
    destruct (ascii_dec ":" a); [discriminate|].
    destruct (Index p ":") eqn:E; [discriminate|].
    rewrite IH by reflexivity. reflexivity.
Qed.

Lemma SplitN_first_colon (p r : string) :
  Index p ":" = None ->
  SplitN (String.append p (String ":" r)) ":" 2 = [p; r].
Proof.
  intros Hp. unfold SplitN, len.
  rewrite length_append. cbn [String.length].
  replace (Nat.min 2 (String.length p + S (String.length r) + 1) - 1)%nat
    with 1%nat by lia.
  cbn [genSplit]. rewrite (Index_first_colon p r Hp).
  rewrite substring_head.
  unfold len. rewrite length_append. cbn [String.length].
  replace (String.length p + 1)%nat with (String.length (String.append p ":"))
    by (rewrite length_append; reflexivity).
  replace (String.append p (String ":" r))
    with (String.append (String.append p ":") r).
  2:{ clear. induction p as [|a p IH]; cbn; [reflexivity|now rewrite IH]. }
  rewrite substring_skip.
  rewrite length_append. cbn [String.length].
  replace (String.length p + S (String.length r) - (String.length p + 1))%nat
    with (String.length r) by lia.
  now rewrite substring_all.
Qed.

Lemma SplitN_no_colon (s : string) :
  Index s ":" = None -> SplitN s ":" 2 = [s].
Proof.
  intros Hs. unfold SplitN.
  destruct (Nat.min 2 (len s + 1) - 1)%nat; cbn [genSplit]; [reflexivity|].
  now rewrite Hs.
Qed.

(** [SplitN(s, ":", 2)] has one element, [s] itself, or two. *)
Lemma SplitN_2_shape (s : string) :
  SplitN s ":" 2 = [s] \/ exists p h, SplitN s ":" 2 = [p; h].
Proof.
  unfold SplitN.
  destruct (Nat.min 2 (len s + 1) - 1)%nat as [|[|k]] eqn:Hk; [| |lia];
    cbn [genSplit].
  - left; reflexivity.
  - destruct (Index s ":"); [right; eauto | left; reflexivity].
Qed.

End SplitFacts.

(** ** Facts about [int64] *)

Lemma Int64_wrap_in_range (z : Z) : Int64.in_range z -> Int64.wrap z = z.
Proof.
  unfold Int64.in_range, Int64.wrap, Int64.min_int, Int64.max_int.
  intros H. rewrite Z.mod_small; lia.
Qed.

Lemma Int64_add_one (z : Z) :
  Int64.min_int <= z < Int64.max_int -> Int64.add z 1 = z + 1.
Proof.
  intros H. apply Int64_wrap_in_range. unfold Int64.in_range. lia.
Qed.

Lemma Int64_add_one_max : Int64.add Int64.max_int 1 = Int64.min_int.
Proof. reflexivity. Qed.

(** ** Proof tools *)

(** The library functions are kept folded when method bodies are simplified. *)
Arguments GoStrings.SplitN : simpl never.
Arguments GoStrings.HasPrefix : simpl never.
Arguments String.append : simpl never.
Arguments Int64.add : simpl never.
Arguments Int64.sub : simpl never.
Arguments Z.mul : simpl never.
Arguments Z.add : simpl never.

(** Unfold the monadic plumbing of a method body. *)
Ltac go_unfold :=
  cbv [bind ret get modify ask emit panic time_Now net_Dial slice_index
       outputSocket_Close outputSocket_Write Config_DryRun
       result final events fst snd
       netConn remoteHostname protocolName outputSocket addNewline
       connectTime reconnectTime connected droppedEventCount
       droppedEventSinceConnection Config
       set_netConn set_remoteHostname set_protocolName set_outputSocket
       set_addNewline set_connectTime set_reconnectTime set_connected
       set_droppedEventCount set_droppedEventSinceConnection set_Config].

Ltac go_step := go_unfold; cbn.

(** ** Equations of the methods *)


Section Equations.

Variable env : Env.

Lemma closeAndScheduleReconnection_eq (o : NetOutput) :
  close_is_safe o ->
  closeAndScheduleReconnection env o =
    {| result := Ok tt;
       final := rescheduled (now env) o;
       events := previous_close_events o ++
                 [EvLogInfo (LogLostConnection (netConn o)
                               (Time_Add (now env) (5 * Second)))] |}.
Proof.
  intros Hs. unfold close_is_safe in Hs.
  destruct o as [nc rh pn [c|] an ct rt [|] dc ds cfg]; cbn in Hs;
    try (exfalso; now apply Hs);
    unfold closeAndScheduleReconnection, rescheduled, previous_closed,
      previous_close_events; go_step; reflexivity.
Qed.

Lemma closeAndScheduleReconnection_nil (o : NetOutput) :
  connected o = true -> outputSocket o = None ->
  closeAndScheduleReconnection env o =
    {| result := Panic NilDereference; final := o; events := [] |}.
Proof.
  destruct o as [nc rh pn [c|] an ct rt [|] dc ds cfg]; cbn;
    intros Hc Hn; try discriminate.
  unfold closeAndScheduleReconnection; go_step; reflexivity.
Qed.

Lemma output_disconnected_eq (o : NetOutput) (m : string) :
  connected o = false ->
  output m env o =
    {| result := Ok None;
       final := set_droppedEventCount (Int64.add (droppedEventCount o) 1) o;
       events := [] |}.
Proof.
  destruct o as [nc rh pn sock an ct rt [|] dc ds cfg]; cbn;
    intros Hc; try discriminate.
  unfold output; go_step; reflexivity.
Qed.

Lemma output_write_ok_eq (o : NetOutput) (m : string) (c : Conn) :
  connected o = true -> outputSocket o = Some c ->
  Conn_Write env c (framed o m) = None ->
  output m env o =
    {| result := Ok None; final := o;
       events := [EvWrite (fd c) (framed o m)] |}.
Proof.
  destruct o as [nc rh pn sock an ct rt [|] dc ds cfg]; cbn;
    intros Hc Hs Hw; try discriminate. subst sock.
  unfold Conn_Write, framed in *; cbn in *.
  unfold output; go_step.
  destruct (closed c); [discriminate|]. cbn. rewrite Hw. reflexivity.
Qed.

Lemma output_write_failed_eq (o : NetOutput) (m : string) (c : Conn) (e : error) :
  connected o = true -> outputSocket o = Some c ->
  Conn_Write env c (framed o m) = Some e ->
  output m env o =
    {| result := Ok (Some e);
       final := rescheduled (now env) o;
       events := [EvWrite (fd c) (framed o m); EvClose (fd c);
                  EvLogInfo (LogLostConnection (netConn o)
                               (Time_Add (now env) (5 * Second)))] |}.
Proof.
  destruct o as [nc rh pn sock an ct rt [|] dc ds cfg]; cbn;
    intros Hc Hs Hw; try discriminate. subst sock.
  unfold Conn_Write, framed in *; cbn in *.
  unfold output, closeAndScheduleReconnection, rescheduled, previous_closed;
    go_step.
  destruct (closed c); cbn.
  - injection Hw as <-. reflexivity.
  - rewrite Hw. reflexivity.
Qed.

Lemma output_nil_eq (o : NetOutput) (m : string) :
  connected o = true -> outputSocket o = None ->
  output m env o =
    {| result := Panic NilDereference; final := o; events := [] |}.
Proof.
  destruct o as [nc rh pn sock an ct rt [|] dc ds cfg]; cbn;
    intros Hc Hs; try discriminate. subst sock.
  unfold output; go_step; reflexivity.
Qed.

End Equations.

Section InitializeEquations.

Variable env : Env.

Ltac init_unfold :=
  unfold Initialize, markConnected, before_dial, marked, marked_events,
    previous_closed, previous_close_events.

(** A specification without a colon: [connSpecification[1]] is out of
    range. The previous socket is closed and [netConn], [protocolName] are
    already overwritten; nothing is dialled. *)
Lemma Initialize_one_part_eq (o : NetOutput) (spec s : string) :
  close_is_safe o ->
  GoStrings.SplitN spec ":" 2 = [s] ->
  Initialize spec env o =
    {| result := Panic IndexOutOfRange;
       final := set_protocolName s (set_netConn spec (previous_closed o));
       events := previous_close_events o |}.
Proof.
  intros Hs Hsplit. unfold close_is_safe in Hs.
  destruct o as [nc rh pn [c|] an ct rt [|] dc ds cfg]; cbn in Hs;
    try (exfalso; now apply Hs);
    init_unfold; rewrite Hsplit; go_step; reflexivity.
Qed.

Lemma Initialize_dial_failed_eq (o : NetOutput) (spec p h : string) (e : error) :
  close_is_safe o ->
  GoStrings.SplitN spec ":" 2 = [p; h] ->
  dial env p h = inr e ->
  Initialize spec env o =
    {| result := Ok (Some (ConnectError spec e));
       final := set_outputSocket None (before_dial spec p h o);
       events := previous_close_events o ++ [EvDial p h] |}.
Proof.
  intros Hs Hsplit Hd. unfold close_is_safe in Hs.
  destruct o as [nc rh pn [c|] an ct rt [|] dc ds cfg]; cbn in Hs;
    try (exfalso; now apply Hs);
    init_unfold; rewrite Hsplit; go_step;
    destruct (GoStrings.HasPrefix p "tcp"); cbn; rewrite Hd; reflexivity.
Qed.

Lemma Initialize_dial_ok_eq (o : NetOutput) (spec p h : string) (d : nat) :
  close_is_safe o ->
  GoStrings.SplitN spec ":" 2 = [p; h] ->
  dial env p h = inl d ->
  Initialize spec env o =
    {| result := Ok None;
       final := marked (now env)
                  (set_outputSocket (Some {| fd := d; closed := false |})
                     (before_dial spec p h o));
       events := previous_close_events o ++ EvDial p h
                   :: marked_events (now env) (before_dial spec p h o) |}.
Proof.
  intros Hs Hsplit Hd. unfold close_is_safe in Hs.
  destruct o as [nc rh pn [c|] an ct rt [|] dc ds cfg]; cbn in Hs;
    try (exfalso; now apply Hs);
    init_unfold; rewrite Hsplit; go_step;
    destruct (GoStrings.HasPrefix p "tcp"); cbn; rewrite Hd; cbn;
    destruct (dc =? ds); reflexivity.
Qed.

(** Connected with a nil handle: the first statement already panics. *)
Lemma Initialize_nil_eq (o : NetOutput) (spec : string) :
  connected o = true -> outputSocket o = None ->
  Initialize spec env o =
    {| result := Panic NilDereference; final := o; events := [] |}.
Proof.
  destruct o as [nc rh pn [c|] an ct rt [|] dc ds cfg]; cbn;
    intros Hc Hn; try discriminate.
  unfold Initialize; go_step; reflexivity.
Qed.

End InitializeEquations.

(** Field-by-field reading of the helper states. *)

Lemma before_dial_fields (spec p h : string) (o : NetOutput) :
  let b := before_dial spec p h o in
  netConn b = spec /\ protocolName b = p /\ remoteHostname b = h /\
  addNewline b = (GoStrings.HasPrefix p "tcp" || addNewline o) /\
  connected b = connected o /\
  droppedEventCount b = droppedEventCount o /\
  droppedEventSinceConnection b = droppedEventSinceConnection o /\
  connectTime b = connectTime o /\ reconnectTime b = reconnectTime o /\
  Config b = Config o.
Proof.
  unfold before_dial, previous_closed.
  destruct o as [nc rh pn [c|] an ct rt [|] dc ds cfg]; cbn;
    destruct (GoStrings.HasPrefix p "tcp"); cbn; repeat split; reflexivity.
Qed.

Lemma close_is_safe_disconnected (o : NetOutput) :
  connected o = false -> close_is_safe o.
Proof. intros H Hc. congruence. Qed.

Lemma close_is_safe_valid (o : NetOutput) :
  connected_implies_valid o -> close_is_safe o.
Proof.
  intros Hinv Hc. destruct (Hinv Hc) as [c [Hs _]]. congruence.
Qed.

(** ** Drop policy while disconnected *)

(** C1: a message offered while [connected] is false is discarded. The call
    returns no error, nothing is sent to the transport (the trace is empty),
    [droppedEventCount] increases by exactly 1 and every other field is
    unchanged. The counter is an [int64] that starts at 0 and is only ever
    incremented by this call, so it is taken below the largest [int64], which
    it reaches only after 2^63-1 drops. *)
Theorem output_disconnected_drops (env : Env) (o : NetOutput) (m : string) :
  connected o = false ->
  Int64.min_int <= droppedEventCount o < Int64.max_int ->
  let r := output m env o in
  result r = Ok None /\
  events r = [] /\
  droppedEventCount (final r) = droppedEventCount o + 1 /\
  set_droppedEventCount (droppedEventCount o) (final r) = o.
Proof.
  intros Hc Hrange r. subst r. rewrite (output_disconnected_eq env o m Hc).
  cbn [result events final].
  repeat apply conj; try reflexivity.
  - destruct o; cbn in *. now apply Int64_add_one.
  - destruct o; reflexivity.
Qed.

Lemma output_disconnected_drops_witness :
  connected sink_new = false /\
  Int64.min_int <= droppedEventCount sink_new < Int64.max_int /\
  let r := output "event" env_down sink_new in
  result r = Ok None /\
  events r = [] /\
  droppedEventCount (final r) = droppedEventCount sink_new + 1 /\
  set_droppedEventCount (droppedEventCount sink_new) (final r) = sink_new.
Proof.
  assert (Hrange : Int64.min_int <= droppedEventCount sink_new < Int64.max_int)
    by (split; vm_compute; [intros H; discriminate H | reflexivity]).
  split; [reflexivity|]. split; [exact Hrange|].
  exact (output_disconnected_drops env_down sink_new "event" eq_refl Hrange).
Defined.

(** At the very top of the range, which a sink reaches only after 2^63-1
    drops, the increment of [atomic.AddInt64] wraps around. *)
Lemma output_drop_wraps_at_max_int :
  connected sink_counter_max = false /\
  Int64.in_range (droppedEventCount sink_counter_max) /\
  droppedEventCount (final (output "event" env_down sink_counter_max))
    = Int64.min_int /\
  droppedEventCount (final (output "event" env_down sink_counter_max))
    <> droppedEventCount sink_counter_max + 1.
Proof.
  repeat apply conj; try (vm_compute; reflexivity);
    vm_compute; intros H; discriminate H.
Qed.

(** ** Parsing of the connection specification *)

(** How [Initialize] parses, on a sink where its first statement does not
    stop at a nil handle: the specification is cut at its first colon only,
    so the protocol is the text before it and the remote target is
    everything after it, further colons included, and that pair is what is
    dialled. Without a colon the call ends in an index-out-of-range panic,
    after [netConn] and [protocolName] were overwritten with the whole
    string, without dialling and without touching [remoteHostname] or
    [connected]. *)
Theorem Initialize_splits_at_first_colon
    (env : Env) (o : NetOutput) (p r spec : string) :
  close_is_safe o ->
  GoStrings.Index p ":" = None ->
  GoStrings.Index spec ":" = None ->
  (let i := Initialize (String.append p (String ":" r)) env o in
   protocolName (final i) = p /\
   remoteHostname (final i) = r /\
   In (EvDial p r) (events i) /\
   exists v, result i = Ok v) /\
  (let i := Initialize spec env o in
   result i = Panic IndexOutOfRange /\
   filter is_dial (events i) = [] /\
   netConn (final i) = spec /\
   protocolName (final i) = spec /\
   remoteHostname (final i) = remoteHostname o /\
   connected (final i) = connected o).
Proof.
  intros Hsafe Hp Hspec. split.
  - pose proof (SplitN_first_colon p r Hp) as Hsplit.
    cbv zeta.
    destruct (before_dial_fields (String.append p (String ":" r)) p r o)
      as (_ & Hpn & Hrh & _).
    destruct (dial env p r) as [d|e] eqn:Hd.
    + rewrite (Initialize_dial_ok_eq env o _ p r d Hsafe Hsplit Hd).
      cbn [result final events].
      repeat split.
      * unfold marked.
        destruct (_ =? _); cbn; assumption.
      * unfold marked.
        destruct (_ =? _); cbn; assumption.
      * apply in_or_app. right. left. reflexivity.
      * eexists; reflexivity.
    + rewrite (Initialize_dial_failed_eq env o _ p r e Hsafe Hsplit Hd).
      cbn [result final events].
      repeat split; try assumption.
      * apply in_or_app. right. left. reflexivity.
      * eexists; reflexivity.
  - pose proof (SplitN_no_colon spec Hspec) as Hsplit.
    cbv zeta.
    rewrite (Initialize_one_part_eq env o spec spec Hsafe Hsplit).
    cbn [result final events].
    unfold previous_closed, previous_close_events.
    destruct o as [nc rh pn [c|] an ct rt [|] dc ds cfg]; cbn;
      repeat split; reflexivity.
Qed.

Lemma Initialize_splits_at_first_colon_witness :
  close_is_safe sink_new /\
  GoStrings.Index "tcp" ":" = None /\
  GoStrings.Index "localhost" ":" = None /\
  (let i := Initialize "tcp:127.0.0.1:9999" env_up sink_new in
   protocolName (final i) = "tcp"%string /\
   remoteHostname (final i) = "127.0.0.1:9999"%string /\
   In (EvDial "tcp" "127.0.0.1:9999") (events i) /\
   exists v, result i = Ok v) /\
  (let i := Initialize "localhost" env_up sink_new in
   result i = Panic IndexOutOfRange /\
   filter is_dial (events i) = [] /\
   netConn (final i) = "localhost"%string /\
   protocolName (final i) = "localhost"%string /\
   remoteHostname (final i) = remoteHostname sink_new /\
   connected (final i) = connected sink_new).
Proof.
  assert (Hsafe : close_is_safe sink_new) by (intros H; discriminate H).
  split; [exact Hsafe|].
  split; [reflexivity|].
  split; [reflexivity|].
  exact (Initialize_splits_at_first_colon env_up sink_new
           "tcp" "127.0.0.1:9999" "localhost" Hsafe eq_refl eq_refl).
Defined.

(** C2 at the failing input: on a new sink, [Initialize] is given
    ["localhost"], a specification without colon. No error value is
    returned: [connSpecification[1]] is read unchecked and the call ends in
    an index-out-of-range panic, after [netConn] and [protocolName] were
    overwritten and before any dial. The other way [Initialize] can fail, a
    refused dial, does return an error. *)
Theorem Initialize_without_colon_panics :
  GoStrings.Index "localhost" ":" = None /\
  GoStrings.SplitN "localhost" ":" 2 = ["localhost"%string] /\
  result (Initialize "localhost" env_up sink_new) = Panic IndexOutOfRange /\
  ~ (exists e, result (Initialize "localhost" env_up sink_new) = Ok (Some e)) /\
  events (Initialize "localhost" env_up sink_new) = [] /\
  netConn (final (Initialize "localhost" env_up sink_new)) = "localhost"%string /\
  protocolName (final (Initialize "localhost" env_up sink_new))
    = "localhost"%string /\
  result (Initialize "tcp:127.0.0.1:9999" env_down sink_new) =
    Ok (Some (ConnectError "tcp:127.0.0.1:9999"
                (NetError "connection refused"))).
Proof.
  repeat apply conj; try (vm_compute; reflexivity).
  intros [e He]. vm_compute in He. discriminate He.
Qed.

(** ** The invariant "connected implies a valid handle" *)

(** Where the invariant does hold: [output] and
    [closeAndScheduleReconnection] preserve it, and so does [Initialize]
    when called on a disconnected sink, whatever the dial answers. *)

Lemma closeAndScheduleReconnection_disconnects (env : Env) (o : NetOutput) :
  close_is_safe o ->
  connected (final (closeAndScheduleReconnection env o)) = false.
Proof.
  intros Hs. rewrite (closeAndScheduleReconnection_eq env o Hs).
  cbn [final]. unfold rescheduled, previous_closed.
  destruct o as [nc rh pn [c|] an ct rt [|] dc ds cfg]; reflexivity.
Qed.

Lemma closeAndScheduleReconnection_preserves_invariant
    (env : Env) (o : NetOutput) :
  connected_implies_valid o ->
  connected_implies_valid (final (closeAndScheduleReconnection env o)).
Proof.
  intros Hinv Hc.
  rewrite (closeAndScheduleReconnection_disconnects env o
             (close_is_safe_valid o Hinv)) in Hc.
  discriminate Hc.
Qed.

Lemma output_preserves_invariant (env : Env) (o : NetOutput) (m : string) :
  connected_implies_valid o ->
  connected_implies_valid (final (output m env o)).
Proof.
  intros Hinv. destruct (connected o) eqn:Hc.
  - destruct (Hinv Hc) as [c [Hs Hopen]].
    destruct (Conn_Write env c (framed o m)) as [e|] eqn:Hw.
    + rewrite (output_write_failed_eq env o m c e Hc Hs Hw). cbn [final].
      unfold rescheduled. rewrite Hc. intros H. discriminate H.
    + rewrite (output_write_ok_eq env o m c Hc Hs Hw). exact Hinv.
  - rewrite (output_disconnected_eq env o m Hc). cbn [final].
    intros H. destruct o; cbn in *. congruence.
Qed.

Lemma Initialize_from_disconnected_preserves_invariant
    (env : Env) (o : NetOutput) (spec : string) :
  connected o = false ->
  connected_implies_valid (final (Initialize spec env o)).
Proof.
  intros Hc. pose proof (close_is_safe_disconnected o Hc) as Hsafe.
  destruct (SplitN_2_shape spec) as [Hsplit | (p & h & Hsplit)].
  - rewrite (Initialize_one_part_eq env o spec spec Hsafe Hsplit). cbn [final].
    unfold previous_closed. rewrite Hc. intros H.
    destruct o; cbn in *. congruence.
  - destruct (before_dial_fields spec p h o) as (_ & _ & _ & _ & Hcb & _).
    destruct (dial env p h) as [d|e] eqn:Hd.
    + rewrite (Initialize_dial_ok_eq env o spec p h d Hsafe Hsplit Hd).
      cbn [final]. intros _.
      exists {| fd := d; closed := false |}. split; [|reflexivity].
      unfold marked. destruct (_ =? _); reflexivity.
    + rewrite (Initialize_dial_failed_eq env o spec p h e Hsafe Hsplit Hd).
      cbn [final]. intros H.
      destruct (before_dial spec p h o); cbn in *. congruence.
Qed.

(** A successful dial establishes the invariant from any sink on which the
    call does not panic. *)
Lemma Initialize_dial_ok_establishes_invariant
    (env : Env) (o : NetOutput) (spec p h : string) (d : nat) :
  close_is_safe o ->
  GoStrings.SplitN spec ":" 2 = [p; h] ->
  dial env p h = inl d ->
  connected_implies_valid (final (Initialize spec env o)).
Proof.
  intros Hsafe Hsplit Hd _.
  rewrite (Initialize_dial_ok_eq env o spec p h d Hsafe Hsplit Hd).
  cbn [final]. exists {| fd := d; closed := false |}. split; [|reflexivity].
  unfold marked. destruct (_ =? _); reflexivity.
Qed.

(** What a refused dial leaves behind in general: the error is returned, the
    handle is nil, and [connected] is whatever it was before the call. *)
Lemma Initialize_dial_failed_fields
    (env : Env) (o : NetOutput) (spec p h : string) (e : error) :
  close_is_safe o ->
  GoStrings.SplitN spec ":" 2 = [p; h] ->
  dial env p h = inr e ->
  let r := Initialize spec env o in
  result r = Ok (Some (ConnectError spec e)) /\
  outputSocket (final r) = None /\
  connected (final r) = connected o.
Proof.
  intros Hsafe Hsplit Hd r. subst r.
  rewrite (Initialize_dial_failed_eq env o spec p h e Hsafe Hsplit Hd).
  cbn [result final].
  destruct (before_dial_fields spec p h o) as (_ & _ & _ & _ & Hcb & _).
  destruct (before_dial spec p h o); cbn in *. auto.
Qed.

(** C3 at the failing input: the sink is connected over tcp with a valid
    handle; [Initialize] is called again and the dial is refused. The error
    is returned, but [connected] is still true while the handle is nil: the
    invariant is broken, and the next message dereferences the nil handle. *)
Theorem Initialize_refused_on_connected_sink_stays_connected :
  let r := Initialize "tcp:127.0.0.1:9999" env_down sink_tcp in
  final r = sink_redial_refused /\
  connected sink_tcp = true /\
  outputSocket sink_tcp = Some {| fd := 3; closed := false |} /\
  result r =
    Ok (Some (ConnectError "tcp:127.0.0.1:9999" (NetError "connection refused"))) /\
  events r = [EvClose 3; EvDial "tcp" "127.0.0.1:9999"] /\
  connected (final r) = true /\
  outputSocket (final r) = None /\
  ~ connected_implies_valid (final r) /\
  result (output "event" env_up (final r)) = Panic NilDereference.
Proof.
  cbv zeta. repeat apply conj; try (vm_compute; reflexivity).
  intros Hinv. destruct (Hinv eq_refl) as [c [Hs _]]. discriminate Hs.
Qed.

(** ** Write failure on a connected sink *)

(** C4: when the write of a message on a connected sink returns an error,
    [output] closes the transport, clears [connected], sets [reconnectTime]
    to the time of the failure plus 5 seconds, and returns that error. The
    trace holds a single write: the message is not sent again. *)
Theorem output_write_failure_disconnects
    (env : Env) (o : NetOutput) (m : string) (c : Conn) (e : error) :
  connected o = true ->
  outputSocket o = Some c ->
  Conn_Write env c (framed o m) = Some e ->
  let r := output m env o in
  result r = Ok (Some e) /\
  connected (final r) = false /\
  outputSocket (final r) = Some {| fd := fd c; closed := true |} /\
  reconnectTime (final r) = now env + 5 * 1000000000 /\
  events r = [EvWrite (fd c) (framed o m);
              EvClose (fd c);
              EvLogInfo (LogLostConnection (netConn o)
                           (now env + 5 * 1000000000))] /\
  writes (events r) = [EvWrite (fd c) (framed o m)].
Proof.
  intros Hc Hs Hw r. subst r.
  rewrite (output_write_failed_eq env o m c e Hc Hs Hw).
  cbn [result final events].
  unfold rescheduled, previous_closed. rewrite Hc, Hs.
  repeat split.
Qed.

Lemma output_write_failure_disconnects_witness :
  connected sink_tcp = true /\
  outputSocket sink_tcp = Some {| fd := 3; closed := false |} /\
  Conn_Write env_down {| fd := 3; closed := false |} (framed sink_tcp "event")
    = Some (NetError "broken pipe") /\
  let r := output "event" env_down sink_tcp in
  result r = Ok (Some (NetError "broken pipe")) /\
  connected (final r) = false /\
  outputSocket (final r) = Some {| fd := 3; closed := true |} /\
  reconnectTime (final r) = 2000 + 5 * 1000000000 /\
  events r = [EvWrite 3 (framed sink_tcp "event");
              EvClose 3;
              EvLogInfo (LogLostConnection (netConn sink_tcp)
                           (2000 + 5 * 1000000000))] /\
  writes (events r) = [EvWrite 3 (framed sink_tcp "event")].
Proof.
  split; [reflexivity|]. split; [reflexivity|]. split; [reflexivity|].
  exact (output_write_failure_disconnects env_down sink_tcp "event"
           {| fd := 3; closed := false |} (NetError "broken pipe")
           eq_refl eq_refl eq_refl).
Defined.

(** C9: a message whose write fails is lost without being counted. On that
    path the error is returned, the sink becomes disconnected and both drop
    counters keep their values; in general [output] changes
    [droppedEventCount] only when it is called on a disconnected sink. *)
Theorem output_write_failure_not_counted
    (env : Env) (o : NetOutput) (m : string) (c : Conn) (e : error) :
  connected o = true ->
  outputSocket o = Some c ->
  Conn_Write env c (framed o m) = Some e ->
  let r := output m env o in
  result r = Ok (Some e) /\
  connected (final r) = false /\
  droppedEventCount (final r) = droppedEventCount o /\
  droppedEventSinceConnection (final r) = droppedEventSinceConnection o /\
  (forall env' o' m',
     droppedEventCount (final (output m' env' o')) <> droppedEventCount o' ->
     connected o' = false).
Proof.
  intros Hc Hs Hw r. subst r.
  rewrite (output_write_failed_eq env o m c e Hc Hs Hw).
  cbn [result final].
  unfold rescheduled, previous_closed. rewrite Hc, Hs.
  repeat split.
  intros env' o' m' Hne.
  destruct (connected o') eqn:Hc'; [exfalso|reflexivity].
  apply Hne. clear Hne.
  destruct (outputSocket o') as [c'|] eqn:Hs'.
  - destruct (Conn_Write env' c' (framed o' m')) as [e'|] eqn:Hw'.
    + rewrite (output_write_failed_eq env' o' m' c' e' Hc' Hs' Hw').
      cbn [final]. unfold rescheduled, previous_closed. rewrite Hc', Hs'.
      reflexivity.
    + now rewrite (output_write_ok_eq env' o' m' c' Hc' Hs' Hw').
  - now rewrite (output_nil_eq env' o' m' Hc' Hs').
Qed.

Lemma output_write_failure_not_counted_witness :
  connected sink_tcp = true /\
  outputSocket sink_tcp = Some {| fd := 3; closed := false |} /\
  Conn_Write env_down {| fd := 3; closed := false |} (framed sink_tcp "event")
    = Some (NetError "broken pipe") /\
  let r := output "event" env_down sink_tcp in
  result r = Ok (Some (NetError "broken pipe")) /\
  connected (final r) = false /\
  droppedEventCount (final r) = droppedEventCount sink_tcp /\
  droppedEventSinceConnection (final r) = droppedEventSinceConnection sink_tcp /\
  (forall env' o' m',
     droppedEventCount (final (output m' env' o')) <> droppedEventCount o' ->
     connected o' = false).
Proof.
  split; [reflexivity|]. split; [reflexivity|]. split; [reflexivity|].
  exact (output_write_failure_not_counted env_down sink_tcp "event"
           {| fd := 3; closed := false |} (NetError "broken pipe")
           eq_refl eq_refl eq_refl).
Defined.

(** ** Successful dial *)

(** For counters within [int64], the reported difference is zero exactly when
    the two counters are equal, which is the test [markConnected] makes. *)
Lemma Int64_sub_zero_iff (a b : Z) :
  Int64.in_range a -> Int64.in_range b ->
  (Int64.sub a b = 0 <-> a = b).
Proof.
  unfold Int64.in_range, Int64.sub, Int64.wrap, Int64.min_int, Int64.max_int.
  intros Ha Hb. split.
  - intros H.
    assert (Hm : (a - b + 2 ^ 63) mod 2 ^ 64 = 2 ^ 63) by lia.
    destruct (Z_lt_le_dec (a - b) (- 2 ^ 63)) as [Hlo|Hlo].
    + replace (a - b + 2 ^ 63) with ((a - b + 2 ^ 63 + 2 ^ 64) + (-1) * 2 ^ 64)
        in Hm by lia.
      rewrite Z.mod_add in Hm by lia. rewrite Z.mod_small in Hm; lia.
    + destruct (Z_lt_le_dec (a - b) (2 ^ 63)) as [Hhi|Hhi].
      * rewrite Z.mod_small in Hm; lia.
      * replace (a - b + 2 ^ 63) with ((a - b - 2 ^ 63) + 1 * 2 ^ 64)
          in Hm by lia.
        rewrite Z.mod_add in Hm by lia. rewrite Z.mod_small in Hm; lia.
  - intros ->. replace (b - b + 2 ^ 63) with (2 ^ 63) by lia. reflexivity.
Qed.

(** C5: when the dial of [Initialize] succeeds, the call returns no error,
    [connectTime] is the time of the call, [connected] is true and the new
    handle is stored. [droppedEventCount] is untouched and
    [droppedEventSinceConnection] ends equal to it. When the two counters
    differed before the call (events were dropped since the last successful
    connection), the difference is logged once, right after the connection
    line; when they were equal, nothing is logged about drops. *)
Theorem Initialize_dial_success_marks_connected
    (env : Env) (o : NetOutput) (p h : string) (d : nat) :
  close_is_safe o ->
  GoStrings.Index p ":" = None ->
  dial env p h = inl d ->
  let spec := String.append p (String ":" h) in
  let r := Initialize spec env o in
  result r = Ok None /\
  connectTime (final r) = now env /\
  connected (final r) = true /\
  outputSocket (final r) = Some {| fd := d; closed := false |} /\
  droppedEventCount (final r) = droppedEventCount o /\
  droppedEventSinceConnection (final r) = droppedEventCount o /\
  (droppedEventCount o <> droppedEventSinceConnection o ->
   events r =
     previous_close_events o ++
     [EvDial p h;
      EvLogInfo (LogConnected spec (now env));
      EvLogInfo (LogDropped
        (Int64.sub (droppedEventCount o) (droppedEventSinceConnection o)))]) /\
  (droppedEventCount o = droppedEventSinceConnection o ->
   events r =
     previous_close_events o ++
     [EvDial p h; EvLogInfo (LogConnected spec (now env))]).
Proof.
  intros Hsafe Hp Hd spec r. subst r spec.
  pose proof (SplitN_first_colon p h Hp) as Hsplit.
  rewrite (Initialize_dial_ok_eq env o _ p h d Hsafe Hsplit Hd).
  cbn [result final events].
  destruct (before_dial_fields (String.append p (String ":" h)) p h o)
    as (Hnc & _ & _ & _ & _ & Hdc & Hds & _).
  unfold marked, marked_events.
  destruct (before_dial (String.append p (String ":" h)) p h o)
    as [nc rh pn sock an ct rt cn dc ds cfg].
  cbn in Hnc, Hdc, Hds |- *. subst nc dc ds.
  destruct (Z.eqb_spec (droppedEventCount o) (droppedEventSinceConnection o))
    as [Heq|Hne]; cbn; repeat split; congruence.
Qed.

Lemma Initialize_dial_success_marks_connected_witness :
  close_is_safe sink_dropped /\
  GoStrings.Index "tcp" ":" = None /\
  dial env_up "tcp" "127.0.0.1:9999" = inl 3%nat /\
  let spec := "tcp:127.0.0.1:9999"%string in
  let r := Initialize spec env_up sink_dropped in
  result r = Ok None /\
  connectTime (final r) = now env_up /\
  connected (final r) = true /\
  outputSocket (final r) = Some {| fd := 3; closed := false |} /\
  droppedEventCount (final r) = droppedEventCount sink_dropped /\
  droppedEventSinceConnection (final r) = droppedEventCount sink_dropped /\
  (droppedEventCount sink_dropped <> droppedEventSinceConnection sink_dropped ->
   events r =
     previous_close_events sink_dropped ++
     [EvDial "tcp" "127.0.0.1:9999";
      EvLogInfo (LogConnected spec (now env_up));
      EvLogInfo (LogDropped
        (Int64.sub (droppedEventCount sink_dropped)
           (droppedEventSinceConnection sink_dropped)))]) /\
  (droppedEventCount sink_dropped = droppedEventSinceConnection sink_dropped ->
   events r =
     previous_close_events sink_dropped ++
     [EvDial "tcp" "127.0.0.1:9999"; EvLogInfo (LogConnected spec (now env_up))]).
Proof.
  assert (Hsafe : close_is_safe sink_dropped) by (intros H; discriminate H).
  split; [exact Hsafe|]. split; [reflexivity|]. split; [reflexivity|].
  exact (Initialize_dial_success_marks_connected env_up sink_dropped
           "tcp" "127.0.0.1:9999" 3%nat Hsafe eq_refl eq_refl).
Defined.

(** The sample sink has dropped two events when it connects, and says so. *)
Example Initialize_reports_two_drops :
  droppedEventCount sink_dropped = 2 /\
  droppedEventSinceConnection sink_dropped = 0 /\
  events (Initialize "tcp:127.0.0.1:9999" env_up sink_dropped) =
    [EvDial "tcp" "127.0.0.1:9999";
     EvLogInfo (LogConnected "tcp:127.0.0.1:9999" 1000);
     EvLogInfo (LogDropped 2)].
Proof. repeat apply conj; vm_compute; reflexivity. Qed.

(** ** Framing *)

Lemma append_CRLF_differs (m : string) : String.append m CRLF <> m.
Proof.
  intros H. apply (f_equal String.length) in H.
  rewrite length_append in H. cbn in H. lia.
Qed.

(** On a connected sink with a non-nil handle, the bytes handed to the
    transport are the message followed by CR LF exactly when [addNewline] is
    set, and the message itself exactly when it is not. *)
Lemma output_frames_by_addNewline
    (env : Env) (o : NetOutput) (m : string) (c : Conn) :
  connected o = true ->
  outputSocket o = Some c ->
  writes (events (output m env o)) = [EvWrite (fd c) (framed o m)] /\
  (framed o m = String.append m CRLF <-> addNewline o = true) /\
  (framed o m = m <-> addNewline o = false).
Proof.
  intros Hc Hs. split.
  - destruct (Conn_Write env c (framed o m)) as [e|] eqn:Hw.
    + now rewrite (output_write_failed_eq env o m c e Hc Hs Hw).
    + now rewrite (output_write_ok_eq env o m c Hc Hs Hw).
  - pose proof (append_CRLF_differs m) as Hne.
    unfold framed. destruct (addNewline o); split; split; congruence.
Qed.

(** [Initialize] only ever sets the flag: after a call that reaches the dial
    it is set if the protocol starts with "tcp" or if it was set before. *)
Lemma Initialize_addNewline_is_sticky
    (env : Env) (o : NetOutput) (p h : string) :
  close_is_safe o ->
  GoStrings.Index p ":" = None ->
  addNewline (final (Initialize (String.append p (String ":" h)) env o)) =
    (GoStrings.HasPrefix p "tcp" || addNewline o).
Proof.
  intros Hsafe Hp.
  pose proof (SplitN_first_colon p h Hp) as Hsplit.
  destruct (before_dial_fields (String.append p (String ":" h)) p h o)
    as (_ & _ & _ & Han & _).
  destruct (dial env p h) as [d|e] eqn:Hd.
  - rewrite (Initialize_dial_ok_eq env o _ p h d Hsafe Hsplit Hd).
    cbn [final]. unfold marked.
    destruct (before_dial _ p h o); cbn in *.
    destruct (_ =? _); cbn; assumption.
  - rewrite (Initialize_dial_failed_eq env o _ p h e Hsafe Hsplit Hd).
    cbn [final]. destruct (before_dial _ p h o); cbn in *. assumption.
Qed.

(** A sink that has only ever been initialized over udp sends the raw
    message. *)
Example output_udp_first_sends_raw :
  protocolName sink_udp = "udp"%string /\
  addNewline sink_udp = false /\
  events (output "event" env_up sink_udp) = [EvWrite 3 "event"].
Proof. repeat apply conj; vm_compute; reflexivity. Qed.

(** C6 at the failing input: a sink is initialized over tcp and then
    initialized again over udp, both dials succeeding. The flag set by the
    first call is not cleared by the second, so the datagram carries the
    message followed by CR LF instead of the raw message. *)
Theorem output_udp_after_tcp_appends_CRLF :
  sink_tcp_then_udp =
    final (Initialize "udp:127.0.0.1:9999" env_up
      (final (Initialize "tcp:127.0.0.1:9999" env_up sink_new))) /\
  protocolName sink_tcp_then_udp = "udp"%string /\
  GoStrings.HasPrefix (protocolName sink_tcp_then_udp) "tcp" = false /\
  connected sink_tcp_then_udp = true /\
  addNewline sink_tcp_then_udp = true /\
  result (output "event" env_up sink_tcp_then_udp) = Ok None /\
  events (output "event" env_up sink_tcp_then_udp) =
    [EvWrite 3 (String.append "event" CRLF)] /\
  events (output "event" env_up sink_tcp_then_udp) <> [EvWrite 3 "event"].
Proof.
  repeat apply conj; try (vm_compute; reflexivity).
  intros H. discriminate H.
Qed.

(** ** Identity fields after a failed [Initialize] *)

(** C10: [Initialize] stores the specification, the protocol name and the
    remote hostname before it dials, and does not restore them when the dial
    fails: after the returned error, [Key], [String] and [Statistics] show the
    target of the failed attempt, and that target is what was dialled. *)
Theorem Initialize_dial_failure_keeps_new_identity
    (env : Env) (o : NetOutput) (p h : string) (e : error) :
  close_is_safe o ->
  GoStrings.Index p ":" = None ->
  dial env p h = inr e ->
  let spec := String.append p (String ":" h) in
  let r := Initialize spec env o in
  result r = Ok (Some (ConnectError spec e)) /\
  events r = previous_close_events o ++ [EvDial p h] /\
  Key (final r) = spec /\
  String_ (final r) = spec /\
  Protocol (Statistics (final r)) = p /\
  RemoteHostname (Statistics (final r)) = h.
Proof.
  intros Hsafe Hp Hd spec r. subst r spec.
  pose proof (SplitN_first_colon p h Hp) as Hsplit.
  rewrite (Initialize_dial_failed_eq env o _ p h e Hsafe Hsplit Hd).
  cbn [result final events].
  destruct (before_dial_fields (String.append p (String ":" h)) p h o)
    as (Hnc & Hpn & Hrh & _).
  unfold Key, String_, Statistics.
  destruct (before_dial _ p h o); cbn in *. repeat split; assumption.
Qed.

Lemma Initialize_dial_failure_keeps_new_identity_witness :
  close_is_safe sink_tcp /\
  GoStrings.Index "udp" ":" = None /\
  dial env_down "udp" "10.0.0.1:514" = inr (NetError "connection refused") /\
  let spec := "udp:10.0.0.1:514"%string in
  let r := Initialize spec env_down sink_tcp in
  result r = Ok (Some (ConnectError spec (NetError "connection refused"))) /\
  events r = previous_close_events sink_tcp ++ [EvDial "udp" "10.0.0.1:514"] /\
  Key (final r) = spec /\
  String_ (final r) = spec /\
  Protocol (Statistics (final r)) = "udp"%string /\
  RemoteHostname (Statistics (final r)) = "10.0.0.1:514"%string.
Proof.
  assert (Hsafe : close_is_safe sink_tcp) by (intros _ H; discriminate H).
  split; [exact Hsafe|]. split; [reflexivity|]. split; [reflexivity|].
  exact (Initialize_dial_failure_keeps_new_identity env_down sink_tcp
           "udp" "10.0.0.1:514" (NetError "connection refused")
           Hsafe eq_refl eq_refl).
Defined.

(** Before that call the sink showed the target it was connected to. *)
Example Key_before_failed_Initialize :
  Key sink_tcp = "tcp:127.0.0.1:9999"%string /\
  Protocol (Statistics sink_tcp) = "tcp"%string /\
  RemoteHostname (Statistics sink_tcp) = "127.0.0.1:9999"%string.
Proof. repeat apply conj; vm_compute; reflexivity. Qed.

(** ** Starting the control loop *)

(** [Go] looks at the handle only and leaves the sink as it is. *)
Lemma Go_eq (env : Env) (o : NetOutput) :
  Go env o =
    match outputSocket o with
    | None => {| result := Ok (Some SocketNotOpen); final := o; events := [] |}
    | Some _ => {| result := Ok None; final := o; events := [EvSpawn] |}
    end.
Proof.
  unfold Go. go_unfold.
  destruct o as [nc rh pn [c|] an ct rt cn dc ds cfg]; reflexivity.
Qed.

(** C7, as the code has it: [Go] returns the "Output socket not open" error
    exactly when the transport handle is nil, and otherwise starts the
    goroutine and returns no error; it never changes the sink. The handle is
    nil on a new sink and after an [Initialize] whose dial failed, whatever
    happened before that call; it is not nil after an [Initialize] whose dial
    succeeded. *)
Theorem Go_fails_iff_handle_is_nil
    (env env' : Env) (o : NetOutput) (p h : string) :
  close_is_safe o ->
  GoStrings.Index p ":" = None ->
  let o' := final (Initialize (String.append p (String ":" h)) env o) in
  ((exists e, dial env p h = inr e) ->
   Go env' o' =
     {| result := Ok (Some SocketNotOpen); final := o'; events := [] |}) /\
  ((exists d, dial env p h = inl d) ->
   Go env' o' = {| result := Ok None; final := o'; events := [EvSpawn] |}) /\
  (forall cfg,
   Go env' (NewNetOutputfromConfig cfg) =
     {| result := Ok (Some SocketNotOpen);
        final := NewNetOutputfromConfig cfg; events := [] |}) /\
  (forall s : NetOutput,
   final (Go env' s) = s /\
   (result (Go env' s) = Ok (Some SocketNotOpen) <-> outputSocket s = None) /\
   (result (Go env' s) = Ok None /\ events (Go env' s) = [EvSpawn]
      <-> outputSocket s <> None)).
Proof.
  intros Hsafe Hp o'.
  pose proof (SplitN_first_colon p h Hp) as Hsplit.
  repeat split.
  - intros [e Hd]. rewrite Go_eq. subst o'.
    rewrite (Initialize_dial_failed_eq env o _ p h e Hsafe Hsplit Hd).
    reflexivity.
  - intros [d Hd]. rewrite Go_eq. subst o'.
    rewrite (Initialize_dial_ok_eq env o _ p h d Hsafe Hsplit Hd).
    cbn [final]. unfold marked.
    destruct (before_dial _ p h o); cbn. destruct (_ =? _); reflexivity.
  - rewrite Go_eq. destruct (outputSocket s); reflexivity.
  - rewrite Go_eq. destruct (outputSocket s); cbn; congruence.
  - rewrite Go_eq. intros ->. reflexivity.
  - rewrite Go_eq. destruct (outputSocket s); cbn; intros [H _]; congruence.
  - rewrite Go_eq. destruct (outputSocket s); cbn; congruence.
  - rewrite Go_eq. destruct (outputSocket s); cbn; congruence.
Qed.

Lemma Go_fails_iff_handle_is_nil_witness :
  close_is_safe sink_new /\
  GoStrings.Index "tcp" ":" = None /\
  let o' := final (Initialize "tcp:127.0.0.1:9999" env_down sink_new) in
  ((exists e, dial env_down "tcp" "127.0.0.1:9999" = inr e) ->
   Go env_up o' =
     {| result := Ok (Some SocketNotOpen); final := o'; events := [] |}) /\
  ((exists d, dial env_down "tcp" "127.0.0.1:9999" = inl d) ->
   Go env_up o' = {| result := Ok None; final := o'; events := [EvSpawn] |}) /\
  (forall cfg,
   Go env_up (NewNetOutputfromConfig cfg) =
     {| result := Ok (Some SocketNotOpen);
        final := NewNetOutputfromConfig cfg; events := [] |}) /\
  (forall s : NetOutput,
   final (Go env_up s) = s /\
   (result (Go env_up s) = Ok (Some SocketNotOpen) <-> outputSocket s = None) /\
   (result (Go env_up s) = Ok None /\ events (Go env_up s) = [EvSpawn]
      <-> outputSocket s <> None)).
Proof.
  assert (Hsafe : close_is_safe sink_new) by (intros H; discriminate H).
  split; [exact Hsafe|]. split; [reflexivity|].
  exact (Go_fails_iff_handle_is_nil env_down env_up sink_new
           "tcp" "127.0.0.1:9999" Hsafe eq_refl).
Defined.

(** C7 as stated fails once a dial has been refused after a successful
    [Initialize]: the first [Initialize] of the sink succeeded, a write then
    failed, the reconnection dial was refused, and [Go] returns the error
    without starting the loop. *)
Lemma Go_fails_after_an_earlier_successful_Initialize :
  result (Initialize "tcp:127.0.0.1:9999" env_up sink_new) = Ok None /\
  sink_tcp = final (Initialize "tcp:127.0.0.1:9999" env_up sink_new) /\
  result (output "event" env_down sink_tcp)
    = Ok (Some (NetError "broken pipe")) /\
  result (Initialize "tcp:127.0.0.1:9999" env_down
            (final (output "event" env_down sink_tcp)))
    = Ok (Some (ConnectError "tcp:127.0.0.1:9999"
                  (NetError "connection refused"))) /\
  result (Go env_up sink_lost_then_refused) = Ok (Some SocketNotOpen) /\
  events (Go env_up sink_lost_then_refused) = [] /\
  result (Go env_up sink_lost_then_refused) <> Ok None.
Proof.
  repeat apply conj; try (vm_compute; reflexivity).
  intros H. discriminate H.
Qed.

(** ** Dry-run mode *)

(** What one loop iteration does with a received message, in terms of
    [output]: the sink evolves as [output] makes it, and an error-log line is
    added when [output] returned an error and [DryRun] is off. *)
Lemma loop_iteration_message_eq
    (env : Env) (o : NetOutput) (m : string) (cfg : Configuration) :
  Config o = Some cfg ->
  let s := output m env o in
  loop_iteration (RecvMessage m) env o =
    {| result := match result s with
                 | Ok _ => Ok false
                 | Panic k => Panic k
                 end;
       final := final s;
       events := events s ++
                 match result s with
                 | Ok (Some e) => if DryRun cfg then [] else [EvLogError e]
                 | _ => []
                 end |}.
Proof.
  intros Hcfg s. subst s.
  destruct (connected o) eqn:Hc.
  - destruct (outputSocket o) as [c|] eqn:Hs.
    + destruct (Conn_Write env c (framed o m)) as [e|] eqn:Hw.
      * unfold loop_iteration, bind at 1 2.
        rewrite (output_write_failed_eq env o m c e Hc Hs Hw).
        cbn [result final events].
        assert (Hcfg' : Config (rescheduled (now env) o) = Some cfg).
        { unfold rescheduled, previous_closed. rewrite Hc, Hs.
          destruct o; exact Hcfg. }
        go_unfold. destruct (rescheduled (now env) o); cbn in Hcfg' |- *.
        rewrite Hcfg'. destruct (DryRun cfg); cbn; rewrite ?app_nil_r;
          reflexivity.
      * unfold loop_iteration, bind at 1 2.
        rewrite (output_write_ok_eq env o m c Hc Hs Hw).
        go_unfold. cbn. reflexivity.
    + unfold loop_iteration, bind at 1 2.
      rewrite (output_nil_eq env o m Hc Hs). reflexivity.
  - unfold loop_iteration, bind at 1 2.
    rewrite (output_disconnected_eq env o m Hc).
    go_unfold. cbn. reflexivity.
Qed.

(** [output] never reads [Config]: with another configuration it returns the
    same result, emits the same trace and makes the same changes. *)
Lemma output_ignores_Config
    (env : Env) (o : NetOutput) (m : string) (c : option Configuration) :
  output m env (set_Config c o) =
    {| result := result (output m env o);
       final := set_Config c (final (output m env o));
       events := events (output m env o) |}.
Proof.
  destruct (connected o) eqn:Hc.
  - destruct (outputSocket o) as [k|] eqn:Hs.
    + assert (Hf : framed (set_Config c o) m = framed o m) by reflexivity.
      destruct (Conn_Write env k (framed o m)) as [e|] eqn:Hw.
      * rewrite (output_write_failed_eq env o m k e Hc Hs Hw).
        rewrite (output_write_failed_eq env (set_Config c o) m k e); auto.
        cbn [result final events]. rewrite Hf.
        unfold rescheduled, previous_closed.
        destruct o; cbn in *; subst; reflexivity.
      * rewrite (output_write_ok_eq env o m k Hc Hs Hw).
        rewrite (output_write_ok_eq env (set_Config c o) m k); auto.
    + rewrite (output_nil_eq env o m Hc Hs).
      rewrite (output_nil_eq env (set_Config c o) m); auto.
  - rewrite (output_disconnected_eq env o m Hc).
    rewrite (output_disconnected_eq env (set_Config c o) m); auto.
Qed.

Lemma output_emits_no_error_log (env : Env) (o : NetOutput) (m : string) :
  without_error_log (events (output m env o)) = events (output m env o).
Proof.
  destruct (connected o) eqn:Hc.
  - destruct (outputSocket o) as [k|] eqn:Hs.
    + destruct (Conn_Write env k (framed o m)) as [e|] eqn:Hw.
      * now rewrite (output_write_failed_eq env o m k e Hc Hs Hw).
      * now rewrite (output_write_ok_eq env o m k Hc Hs Hw).
    + now rewrite (output_nil_eq env o m Hc Hs).
  - now rewrite (output_disconnected_eq env o m Hc).
Qed.

Lemma without_error_log_app (t u : list Event) :
  without_error_log (t ++ u) = without_error_log t ++ without_error_log u.
Proof. apply filter_app. Qed.

(** C8: handling a message with [DryRun] set or cleared gives the same
    result and the same evolution of the sink, which is the one [output]
    alone produces (drop counters, [connected], the handle and
    [reconnectTime] included), and the same trace once error-log lines are
    left out. With [DryRun] set the trace is exactly that of [output]; with
    [DryRun] cleared it has one more line, the error [output] returned, when
    there is one. *)
Theorem DryRun_only_silences_error_log
    (env : Env) (o : NetOutput) (m : string) (cfg cfg' : Configuration) :
  let s := output m env o in
  let r := loop_iteration (RecvMessage m) env (set_Config (Some cfg) o) in
  let r' := loop_iteration (RecvMessage m) env (set_Config (Some cfg') o) in
  result r = result r' /\
  final r = set_Config (Some cfg) (final s) /\
  final r' = set_Config (Some cfg') (final s) /\
  (droppedEventCount (final r) = droppedEventCount (final r') /\
   droppedEventSinceConnection (final r) = droppedEventSinceConnection (final r') /\
   connected (final r) = connected (final r') /\
   outputSocket (final r) = outputSocket (final r') /\
   reconnectTime (final r) = reconnectTime (final r')) /\
  without_error_log (events r) = without_error_log (events r') /\
  without_error_log (events r) = events s /\
  (DryRun cfg = true -> events r = events s) /\
  (DryRun cfg = false ->
   events r = events s ++ match result s with
                          | Ok (Some e) => [EvLogError e]
                          | _ => []
                          end).
Proof.
  intros s r r'. subst r r'.
  rewrite (loop_iteration_message_eq env (set_Config (Some cfg) o) m cfg)
    by (destruct o; reflexivity).
  rewrite (loop_iteration_message_eq env (set_Config (Some cfg') o) m cfg')
    by (destruct o; reflexivity).
  rewrite !output_ignores_Config. cbn [result final events]. fold s.
  assert (Hlog : forall c : Configuration,
            without_error_log
              (events s ++ match result s with
                           | Ok (Some e) => if DryRun c then [] else [EvLogError e]
                           | _ => []
                           end) = events s).
  { intros c. rewrite without_error_log_app.
    unfold s at 1. rewrite output_emits_no_error_log. fold s.
    destruct (result s) as [[e|]|k]; [destruct (DryRun c)| |];
      cbn; apply app_nil_r. }
  clearbody s.
  repeat apply conj;
    try (destruct (final s); destruct (result s) as [[e|]|k]; reflexivity).
  - now rewrite !Hlog.
  - apply Hlog.
  - intros ->. destruct (result s) as [[e|]|k]; apply app_nil_r.
  - intros ->. reflexivity.
Qed.

(** On a write failure the two settings differ by the error line alone. *)
Example DryRun_write_failure_traces :
  events (loop_iteration (RecvMessage "event") env_down
            (set_Config (Some {| DryRun := false |}) sink_tcp)) =
    events (output "event" env_down sink_tcp)
      ++ [EvLogError (NetError "broken pipe")] /\
  events (loop_iteration (RecvMessage "event") env_down
            (set_Config (Some {| DryRun := true |}) sink_tcp)) =
    events (output "event" env_down sink_tcp) /\
  final (loop_iteration (RecvMessage "event") env_down
           (set_Config (Some {| DryRun := true |}) sink_tcp)) =
    set_Config (Some {| DryRun := true |})
      (final (loop_iteration (RecvMessage "event") env_down
                (set_Config (Some {| DryRun := false |}) sink_tcp))).
Proof. repeat apply conj; vm_compute; reflexivity. Qed.

(** ** Dry-run mode over a whole run of the loop *)

(** No method reads [Config] except the error-log test of the loop. *)

Lemma closeAndScheduleReconnection_ignores_Config
    (env : Env) (o : NetOutput) (c : option Configuration) :
  closeAndScheduleReconnection env (set_Config c o) =
    {| result := result (closeAndScheduleReconnection env o);
       final := set_Config c (final (closeAndScheduleReconnection env o));
       events := events (closeAndScheduleReconnection env o) |}.
Proof.
  destruct o as [nc rh pn [k|] an ct rt [|] dc ds cfg];
    unfold closeAndScheduleReconnection; go_step; reflexivity.
Qed.

Lemma Initialize_ignores_Config
    (env : Env) (o : NetOutput) (spec : string) (c : option Configuration) :
  Initialize spec env (set_Config c o) =
    {| result := result (Initialize spec env o);
       final := set_Config c (final (Initialize spec env o));
       events := events (Initialize spec env o) |}.
Proof.
  destruct (connected o) eqn:Hc; [destruct (outputSocket o) as [k|] eqn:Hs|].
  2:{ rewrite (Initialize_nil_eq env o spec Hc Hs).
      rewrite (Initialize_nil_eq env (set_Config c o) spec); auto. }
  all: assert (Hsafe : close_is_safe o) by (intros H; congruence);
    assert (Hsafe' : close_is_safe (set_Config c o))
      by (intros H; destruct o; cbn in *; congruence);
    destruct (SplitN_2_shape spec) as [Hsplit | (p & h & Hsplit)].
  all: try (rewrite (Initialize_one_part_eq env o spec spec Hsafe Hsplit);
            rewrite (Initialize_one_part_eq env _ spec spec Hsafe' Hsplit);
            cbn [result final events]; unfold previous_closed,
              previous_close_events;
            destruct o; cbn in *; subst; reflexivity).
  all: destruct (dial env p h) as [d|e] eqn:Hd.
  all: try (rewrite (Initialize_dial_ok_eq env o spec p h d Hsafe Hsplit Hd);
            rewrite (Initialize_dial_ok_eq env _ spec p h d Hsafe' Hsplit Hd)).
  all: try (rewrite (Initialize_dial_failed_eq env o spec p h e Hsafe Hsplit Hd);
            rewrite (Initialize_dial_failed_eq env _ spec p h e Hsafe' Hsplit Hd)).
  all: cbn [result final events];
    unfold marked, marked_events, before_dial, previous_closed,
      previous_close_events;
    destruct o; cbn in *; subst;
    destruct (GoStrings.HasPrefix p "tcp"); cbn;
    try destruct (_ =? _); reflexivity.
Qed.

(** The reconnect check of one tick, spelled out. *)
Lemma loop_iteration_tick_eq (env : Env) (o : NetOutput) :
  loop_iteration RecvTick env o =
    if negb (connected o) && Time_After (now env) (reconnectTime o) then
      match Initialize (netConn o) (after_dial env) o with
      | {| result := Ok (Some _); final := o1; events := t1 |} =>
          match closeAndScheduleReconnection (after_dial env) o1 with
          | {| result := Ok _; final := o2; events := t2 |} =>
              {| result := Ok false; final := o2; events := t1 ++ t2 |}
          | {| result := Panic k; final := o2; events := t2 |} =>
              {| result := Panic k; final := o2; events := t1 ++ t2 |}
          end
      | {| result := Ok None; final := o1; events := t1 |} =>
          {| result := Ok false; final := o1; events := t1 |}
      | {| result := Panic k; final := o1; events := t1 |} =>
          {| result := Panic k; final := o1; events := t1 |}
      end
    else {| result := Ok false; final := o; events := [] |}.
Proof.
  unfold loop_iteration. cbv [bind ret get ask time_Now local].
  destruct (negb (connected o) && Time_After (now env) (reconnectTime o));
    [|reflexivity].
  destruct (Initialize (netConn o) (after_dial env) o) as [[[e|]|k] o1 t1];
    cbn [app]; rewrite ?app_nil_r; try reflexivity.
  destruct (closeAndScheduleReconnection (after_dial env) o1)
    as [[[]|k] o2 t2];
    cbn [app]; rewrite ?app_nil_r; reflexivity.
Qed.

Lemma loop_iteration_tick_ignores_Config
    (env : Env) (o : NetOutput) (c : option Configuration) :
  loop_iteration RecvTick env (set_Config c o) =
    {| result := result (loop_iteration RecvTick env o);
       final := set_Config c (final (loop_iteration RecvTick env o));
       events := events (loop_iteration RecvTick env o) |}.
Proof.
  rewrite !loop_iteration_tick_eq.
  replace (connected (set_Config c o)) with (connected o)
    by (destruct o; reflexivity).
  replace (reconnectTime (set_Config c o)) with (reconnectTime o)
    by (destruct o; reflexivity).
  replace (netConn (set_Config c o)) with (netConn o)
    by (destruct o; reflexivity).
  destruct (negb (connected o) && Time_After (now env) (reconnectTime o));
    [|reflexivity].
  rewrite Initialize_ignores_Config.
  destruct (Initialize (netConn o) (after_dial env) o) as [[[e|]|k] o1 t1];
    cbn [result final events]; try reflexivity.
  rewrite closeAndScheduleReconnection_ignores_Config.
  destruct (closeAndScheduleReconnection (after_dial env) o1)
    as [[[]|k] o2 t2];
    reflexivity.
Qed.

Lemma loop_iteration_signal_eq (env : Env) (o : NetOutput) (sg : Signal) :
  loop_iteration (RecvSignal sg) env o =
    match sg with
    | SIGTERM | SIGINT =>
        {| result := Ok true; final := o; events := [EvLogInfo LogSigterm] |}
    | _ => {| result := Ok false; final := o; events := [] |}
    end.
Proof. destruct sg; reflexivity. Qed.

(** One iteration under two configurations: same result, same sink up to
    [Config], same trace up to error-log lines. *)
Lemma loop_iteration_DryRun
    (env : Env) (rcv : Received) (o : NetOutput) (cfg cfg' : Configuration) :
  exists (b : Res bool) (o1 : NetOutput) (t t' : list Event),
    loop_iteration rcv env (set_Config (Some cfg) o) =
      {| result := b; final := set_Config (Some cfg) o1; events := t |} /\
    loop_iteration rcv env (set_Config (Some cfg') o) =
      {| result := b; final := set_Config (Some cfg') o1; events := t' |} /\
    without_error_log t = without_error_log t'.
Proof.
  destruct rcv as [m| |sg].
  - rewrite (loop_iteration_message_eq env (set_Config (Some cfg) o) m cfg)
      by (destruct o; reflexivity).
    rewrite (loop_iteration_message_eq env (set_Config (Some cfg') o) m cfg')
      by (destruct o; reflexivity).
    rewrite !output_ignores_Config. cbn [result final events].
    pose proof (output_emits_no_error_log env o m) as Hlog.
    destruct (output m env o) as [b o1 t]. cbn [result final events] in *.
    do 4 eexists. split; [reflexivity|]. split; [reflexivity|].
    rewrite !without_error_log_app.
    destruct b as [[e|]|k]; [destruct (DryRun cfg), (DryRun cfg')| |];
      reflexivity.
  - rewrite !loop_iteration_tick_ignores_Config.
    destruct (loop_iteration RecvTick env o) as [b o1 t].
    cbn [result final events]. do 4 eexists. repeat split.
  - rewrite !loop_iteration_signal_eq.
    destruct sg; do 4 eexists; repeat split.
Qed.

(** Over any run of the loop, two sinks that differ only in their
    configuration end with the same result and the same fields up to
    [Config], and their traces differ only by error-log lines. *)
Lemma loop_DryRun
    (rs : list (Env * Received)) (o : NetOutput) (cfg cfg' : Configuration) :
  exists (b : Res bool) (o1 : NetOutput) (t t' : list Event),
    loop rs (set_Config (Some cfg) o) =
      {| result := b; final := set_Config (Some cfg) o1; events := t |} /\
    loop rs (set_Config (Some cfg') o) =
      {| result := b; final := set_Config (Some cfg') o1; events := t' |} /\
    without_error_log t = without_error_log t'.
Proof.
  revert o. induction rs as [|[env rcv] rs IH]; intros o.
  - exists (Ok false), o, [], []. repeat split.
  - cbn [loop].
    destruct (loop_iteration_DryRun env rcv o cfg cfg')
      as (b & o1 & t & t' & -> & -> & Ht).
    destruct b as [[|]|k].
    + do 4 eexists. split; [reflexivity|]. split; [reflexivity|]. exact Ht.
    + destruct (IH o1) as (b2 & o2 & u & u' & -> & -> & Hu).
      do 4 eexists. split; [reflexivity|]. split; [reflexivity|].
      rewrite !without_error_log_app. now rewrite Ht, Hu.
    + do 4 eexists. split; [reflexivity|]. split; [reflexivity|]. exact Ht.
Qed.

(** ** The control loop: further equations *)

(** One iteration on a received message, whatever the configuration. *)
Lemma loop_iteration_message_cases (env : Env) (o : NetOutput) (m : string) :
  loop_iteration (RecvMessage m) env o =
    match output m env o with
    | {| result := Ok (Some e); final := o1; events := t1 |} =>
        match Config o1 with
        | None => {| result := Panic NilDereference; final := o1; events := t1 |}
        | Some cfg =>
            {| result := Ok false; final := o1;
               events := t1 ++ (if DryRun cfg then [] else [EvLogError e]) |}
        end
    | {| result := Ok None; final := o1; events := t1 |} =>
        {| result := Ok false; final := o1; events := t1 |}
    | {| result := Panic k; final := o1; events := t1 |} =>
        {| result := Panic k; final := o1; events := t1 |}
    end.
Proof.
  unfold loop_iteration. cbv [bind].
  destruct (output m env o) as [[[e|]|k] o1 t1]; [| |reflexivity].
  - cbv [Config_DryRun bind get ret emit panic].
    destruct (Config o1) as [cfg|]; [|now rewrite app_nil_r].
    destruct (DryRun cfg); cbn [negb app]; rewrite ?app_nil_r; reflexivity.
  - cbv [ret]. cbn [app]. now rewrite !app_nil_r.
Qed.

(** Runs compose: a run over [rs1 ++ rs2] is the run over [rs1] followed,
    when that one is still looping, by the run over [rs2] from the sink it
    left. *)
Lemma loop_app (rs1 rs2 : list (Env * Received)) (o : NetOutput) :
  loop (rs1 ++ rs2) o =
    match loop rs1 o with
    | {| result := Ok false; final := o1; events := t1 |} =>
        match loop rs2 o1 with
        | {| result := b; final := o2; events := t2 |} =>
            {| result := b; final := o2; events := t1 ++ t2 |}
        end
    | s => s
    end.
Proof.
  revert o. induction rs1 as [|[env r] rs1 IH]; intros o.
  - cbn [app loop]. destruct (loop rs2 o); reflexivity.
  - cbn [app loop].
    destruct (loop_iteration r env o) as [[[|]|k] o1 t1]; try reflexivity.
    rewrite IH.
    destruct (loop rs1 o1) as [[[|]|k] o2 t2]; try reflexivity.
    destruct (loop rs2 o2) as [b o3 t3]. now rewrite app_assoc.
Qed.

(** ** Signals *)

(** X1: when the loop, still running after the receptions [rs1], receives
    [SIGTERM] or [SIGINT], the goroutine logs one line and returns: the sink
    is left as it was and nothing received afterwards is processed. *)
Theorem loop_returns_on_termination_signal
    (rs1 rs2 : list (Env * Received)) (env : Env) (sg : Signal) (o : NetOutput) :
  is_termination sg = true ->
  result (loop rs1 o) = Ok false ->
  loop (rs1 ++ (env, RecvSignal sg) :: rs2) o =
    {| result := Ok true;
       final := final (loop rs1 o);
       events := events (loop rs1 o) ++ [EvLogInfo LogSigterm] |}.
Proof.
  intros Hsg Hrun. rewrite loop_app.
  destruct (loop rs1 o) as [b o1 t1]. cbn [result final events] in *. subst b.
  cbn [loop]. rewrite loop_iteration_signal_eq.
  destruct sg; try discriminate Hsg; reflexivity.
Qed.

Lemma loop_returns_on_termination_signal_witness :
  is_termination SIGINT = true /\
  result (loop [(env_up, RecvMessage "a")] sink_tcp) = Ok false /\
  loop ([(env_up, RecvMessage "a")]
          ++ (env_up, RecvSignal SIGINT) :: [(env_up, RecvMessage "b")]) sink_tcp =
    {| result := Ok true;
       final := final (loop [(env_up, RecvMessage "a")] sink_tcp);
       events := events (loop [(env_up, RecvMessage "a")] sink_tcp)
                   ++ [EvLogInfo LogSigterm] |}.
Proof.
  split; [reflexivity|]. split; [vm_compute; reflexivity|].
  exact (loop_returns_on_termination_signal
           [(env_up, RecvMessage "a")] [(env_up, RecvMessage "b")]
           env_up SIGINT sink_tcp eq_refl eq_refl).
Defined.

(** X2: any other signal is ignored: the run is the one the loop would have
    made without receiving it. *)
Theorem loop_ignores_other_signals
    (rs1 rs2 : list (Env * Received)) (env : Env) (sg : Signal) (o : NetOutput) :
  is_termination sg = false ->
  loop (rs1 ++ (env, RecvSignal sg) :: rs2) o = loop (rs1 ++ rs2) o.
Proof.
  intros Hsg. rewrite !loop_app.
  destruct (loop rs1 o) as [[[|]|k] o1 t1]; try reflexivity.
  cbn [loop]. rewrite loop_iteration_signal_eq.
  destruct sg; try discriminate Hsg;
    destruct (loop rs2 o1) as [b o2 t2]; reflexivity.
Qed.

Lemma loop_ignores_other_signals_witness :
  is_termination SIGHUP = false /\
  loop ([(env_up, RecvMessage "a")]
          ++ (env_up, RecvSignal SIGHUP) :: [(env_up, RecvMessage "b")]) sink_tcp =
  loop ([(env_up, RecvMessage "a")] ++ [(env_up, RecvMessage "b")]) sink_tcp.
Proof.
  split; [reflexivity|].
  exact (loop_ignores_other_signals
           [(env_up, RecvMessage "a")] [(env_up, RecvMessage "b")]
           env_up SIGHUP sink_tcp eq_refl).
Defined.

(** ** Sequences of messages *)

(** The run of a disconnected sink over a sequence of messages. *)
Lemma loop_messages_disconnected_eq
    (ems : list (Env * string)) (o : NetOutput) :
  connected o = false ->
  Int64.min_int <= droppedEventCount o ->
  droppedEventCount o + Z.of_nat (List.length ems) <= Int64.max_int ->
  loop (messages ems) o =
    {| result := Ok false;
       final := set_droppedEventCount
                  (droppedEventCount o + Z.of_nat (List.length ems)) o;
       events := [] |}.
Proof.
  revert o. induction ems as [|[env m] ems IH]; intros o Hc Hlo Hhi.
  - cbn [messages map loop List.length Z.of_nat].
    replace (droppedEventCount o + 0) with (droppedEventCount o) by lia.
    destruct o; reflexivity.
  - cbn [messages map loop fst snd]. fold (messages ems).
    rewrite loop_iteration_message_cases.
    rewrite (output_disconnected_eq env o m Hc).
    cbn [List.length] in Hhi. rewrite Nat2Z.inj_succ in Hhi.
    rewrite Int64_add_one by lia.
    rewrite IH.
    + cbn [List.length]. rewrite Nat2Z.inj_succ.
      destruct o; unfold set_droppedEventCount; cbn.
      do 2 f_equal. lia.
    + destruct o; exact Hc.
    + destruct o; cbn in *; lia.
    + destruct o; cbn in *; lia.
Qed.

(** X3: a disconnected sink that is offered a sequence of messages drops
    them all: the loop keeps running, nothing reaches the transport or the
    log, and the only change to the sink is that [droppedEventCount] has
    grown by the number of messages (as long as that stays within [int64]).
    No configuration is needed for that. *)
Theorem loop_drops_every_message_while_disconnected
    (ems : list (Env * string)) (o : NetOutput) :
  connected o = false ->
  Int64.min_int <= droppedEventCount o ->
  droppedEventCount o + Z.of_nat (List.length ems) <= Int64.max_int ->
  loop (messages ems) o =
    {| result := Ok false;
       final := set_droppedEventCount
                  (droppedEventCount o + Z.of_nat (List.length ems)) o;
       events := [] |}.
Proof.
  intros Hc Hlo Hhi. now apply loop_messages_disconnected_eq.
Qed.

Lemma loop_drops_every_message_while_disconnected_witness :
  connected sink_lost = false /\
  Int64.min_int <= droppedEventCount sink_lost /\
  droppedEventCount sink_lost
    + Z.of_nat (List.length [(env_up, "a"%string); (env_down, "b"%string)])
    <= Int64.max_int /\
  loop (messages [(env_up, "a"%string); (env_down, "b"%string)]) sink_lost =
    {| result := Ok false;
       final := set_droppedEventCount
                  (droppedEventCount sink_lost
                     + Z.of_nat (List.length
                         [(env_up, "a"%string); (env_down, "b"%string)]))
                  sink_lost;
       events := [] |}.
Proof.
  assert (H1 : connected sink_lost = false) by reflexivity.
  assert (H2 : Int64.min_int <= droppedEventCount sink_lost)
    by (vm_compute; intros H; discriminate H).
  assert (H3 : droppedEventCount sink_lost
                 + Z.of_nat (List.length
                     [(env_up, "a"%string); (env_down, "b"%string)])
               <= Int64.max_int)
    by (vm_compute; intros H; discriminate H).
  split; [exact H1|]. split; [exact H2|]. split; [exact H3|].
  exact (loop_drops_every_message_while_disconnected
           [(env_up, "a"%string); (env_down, "b"%string)] sink_lost H1 H2 H3).
Defined.

(** X4: a connected sink whose writes succeed transmits a sequence of
    messages in the order received, one write per message, each framed by
    the sink's [addNewline] flag; the sink itself does not change. *)
Theorem loop_transmits_messages_in_order
    (ems : list (Env * string)) (o : NetOutput) (c : Conn) :
  connected o = true ->
  outputSocket o = Some c ->
  Forall (fun em => Conn_Write (fst em) c (framed o (snd em)) = None) ems ->
  loop (messages ems) o =
    {| result := Ok false;
       final := o;
       events := map (fun em => EvWrite (fd c) (framed o (snd em))) ems |}.
Proof.
  intros Hc Hs Hall. induction Hall as [|[env m] ems Hw _ IH].
  - reflexivity.
  - cbn [messages map loop fst snd] in *. fold (messages ems).
    rewrite loop_iteration_message_cases.
    rewrite (output_write_ok_eq env o m c Hc Hs Hw).
    rewrite IH. reflexivity.
Qed.

Lemma loop_transmits_messages_in_order_witness :
  connected sink_tcp = true /\
  outputSocket sink_tcp = Some {| fd := 3; closed := false |} /\
  Forall (fun em => Conn_Write (fst em) {| fd := 3; closed := false |}
                      (framed sink_tcp (snd em)) = None)
    [(env_up, "a"%string); (env_up, "b"%string)] /\
  loop (messages [(env_up, "a"%string); (env_up, "b"%string)]) sink_tcp =
    {| result := Ok false;
       final := sink_tcp;
       events := map (fun em => EvWrite (fd {| fd := 3; closed := false |})
                                  (framed sink_tcp (snd em)))
                   [(env_up, "a"%string); (env_up, "b"%string)] |}.
Proof.
  assert (Hall : Forall (fun em => Conn_Write (fst em) {| fd := 3; closed := false |}
                      (framed sink_tcp (snd em)) = None)
    [(env_up, "a"%string); (env_up, "b"%string)])
    by (repeat constructor).
  split; [reflexivity|]. split; [reflexivity|]. split; [exact Hall|].
  exact (loop_transmits_messages_in_order
           [(env_up, "a"%string); (env_up, "b"%string)] sink_tcp
           {| fd := 3; closed := false |} eq_refl eq_refl Hall).
Defined.

(** ** The reconnect check of the ticker *)

Lemma Time_After_false (t u : Time) : t <= u -> Time_After t u = false.
Proof. intros H. unfold Time_After. apply Z.ltb_ge. exact H. Qed.

Lemma Time_After_true (t u : Time) : u < t -> Time_After t u = true.
Proof. intros H. unfold Time_After. apply Z.ltb_lt. exact H. Qed.

(** X5: a tick does nothing at all (no dial, no close, no log, sink
    unchanged) while the sink is connected, and while the clock has not
    passed [reconnectTime]; at [reconnectTime] itself it still does nothing. *)
Theorem tick_is_idle_when_connected_or_early (env : Env) (o : NetOutput) :
  connected o = true \/ now env <= reconnectTime o ->
  loop_iteration RecvTick env o =
    {| result := Ok false; final := o; events := [] |}.
Proof.
  intros H. rewrite loop_iteration_tick_eq.
  destruct H as [Hc|Ht].
  - rewrite Hc. reflexivity.
  - rewrite (Time_After_false _ _ Ht), andb_false_r. reflexivity.
Qed.

Lemma tick_is_idle_when_connected_or_early_witness :
  (connected sink_lost = true \/
   now (env_up_at 5000002000) <= reconnectTime sink_lost) /\
  loop_iteration RecvTick (env_up_at 5000002000) sink_lost =
    {| result := Ok false; final := sink_lost; events := [] |}.
Proof.
  assert (H : connected sink_lost = true \/
              now (env_up_at 5000002000) <= reconnectTime sink_lost)
    by (right; vm_compute; intros H; discriminate H).
  split; [exact H|].
  exact (tick_is_idle_when_connected_or_early (env_up_at 5000002000) sink_lost H).
Defined.

(** The clock and the transport of the second reading. *)
Lemma after_dial_fields (env : Env) :
  now (after_dial env) = now_after_dial env /\
  dial (after_dial env) = dial env /\
  write (after_dial env) = write env.
Proof. repeat apply conj; reflexivity. Qed.

(** X6: on a disconnected sink whose [reconnectTime] has passed when the tick
    reads the clock, the tick dials the stored target once; when the dial is
    refused the loop goes on, the sink stays disconnected with a nil handle,
    and the next attempt is put off to 5 seconds after the clock reading
    taken once the dial has returned: any later tick whose clock reads at
    most that time is idle. The drop counter is not touched. *)
Theorem tick_refused_dial_rearms_backoff
    (env : Env) (o : NetOutput) (p h : string) (e : error) :
  connected o = false ->
  reconnectTime o < now env ->
  GoStrings.Index p ":" = None ->
  netConn o = String.append p (String ":" h) ->
  dial env p h = inr e ->
  let r := loop_iteration RecvTick env o in
  result r = Ok false /\
  events r = [EvDial p h;
              EvLogInfo (LogLostConnection (netConn o)
                           (now_after_dial env + 5 * 1000000000))] /\
  connected (final r) = false /\
  outputSocket (final r) = None /\
  reconnectTime (final r) = now_after_dial env + 5 * 1000000000 /\
  netConn (final r) = netConn o /\
  droppedEventCount (final r) = droppedEventCount o /\
  (forall env',
   now env' <= now_after_dial env + 5 * 1000000000 ->
   loop_iteration RecvTick env' (final r) =
     {| result := Ok false; final := final r; events := [] |}).
Proof.
  intros Hc Ht Hp Hnet Hd r. subst r.
  cut (let r := loop_iteration RecvTick env o in
       result r = Ok false /\
       events r = [EvDial p h;
                   EvLogInfo (LogLostConnection (netConn o)
                                (now_after_dial env + 5 * 1000000000))] /\
       connected (final r) = false /\
       outputSocket (final r) = None /\
       reconnectTime (final r) = now_after_dial env + 5 * 1000000000 /\
       netConn (final r) = netConn o /\
       droppedEventCount (final r) = droppedEventCount o).
  { cbv zeta. intros (H1 & H2 & H3 & H4 & H5 & H6 & H7).
    repeat apply conj; try assumption.
    intros env' Hearly. rewrite (loop_iteration_tick_eq env').
    rewrite H5, (Time_After_false _ _ Hearly), andb_false_r. reflexivity. }
  cbv zeta.
  rewrite loop_iteration_tick_eq.
  rewrite Hc, (Time_After_true _ _ Ht). cbn [negb andb].
  pose proof (SplitN_first_colon p h Hp) as Hsplit. rewrite <- Hnet in Hsplit.
  destruct (after_dial_fields env) as (Hnow & Hdial & _).
  assert (Hd' : dial (after_dial env) p h = inr e) by (rewrite Hdial; exact Hd).
  rewrite (Initialize_dial_failed_eq (after_dial env) o (netConn o) p h e
             (close_is_safe_disconnected o Hc) Hsplit Hd').
  destruct (before_dial_fields (netConn o) p h o)
    as (Hnc & _ & _ & _ & Hcb & Hdc & _).
  rewrite Hc in Hcb.
  assert (Hc' : connected (set_outputSocket None (before_dial (netConn o) p h o))
                = false)
    by (destruct (before_dial _ p h o); exact Hcb).
  rewrite (closeAndScheduleReconnection_eq (after_dial env) _
             (close_is_safe_disconnected _ Hc')).
  cbn [result final events]. rewrite Hnow.
  unfold rescheduled, previous_close_events. rewrite Hc'.
  unfold previous_close_events. rewrite Hc.
  destruct (before_dial (netConn o) p h o); cbn in *. subst.
  repeat apply conj; reflexivity.
Qed.

Lemma tick_refused_dial_rearms_backoff_witness :
  connected sink_lost = false /\
  reconnectTime sink_lost < now (env_down_at 6000000000) /\
  GoStrings.Index "tcp" ":" = None /\
  netConn sink_lost = "tcp:127.0.0.1:9999"%string /\
  dial (env_down_at 6000000000) "tcp" "127.0.0.1:9999"
    = inr (NetError "connection refused") /\
  let r := loop_iteration RecvTick (env_down_at 6000000000) sink_lost in
  result r = Ok false /\
  events r = [EvDial "tcp" "127.0.0.1:9999";
              EvLogInfo (LogLostConnection (netConn sink_lost)
                           (now_after_dial (env_down_at 6000000000)
                              + 5 * 1000000000))] /\
  connected (final r) = false /\
  outputSocket (final r) = None /\
  reconnectTime (final r)
    = now_after_dial (env_down_at 6000000000) + 5 * 1000000000 /\
  netConn (final r) = netConn sink_lost /\
  droppedEventCount (final r) = droppedEventCount sink_lost /\
  (forall env',
   now env' <= now_after_dial (env_down_at 6000000000) + 5 * 1000000000 ->
   loop_iteration RecvTick env' (final r) =
     {| result := Ok false; final := final r; events := [] |}).
Proof.
  split; [reflexivity|]. split; [reflexivity|]. split; [reflexivity|].
  split; [reflexivity|]. split; [reflexivity|].
  exact (tick_refused_dial_rearms_backoff (env_down_at 6000000000) sink_lost
           "tcp" "127.0.0.1:9999" (NetError "connection refused")
           eq_refl eq_refl eq_refl eq_refl eq_refl).
Defined.

(** X7: on a disconnected sink whose [reconnectTime] has passed when the tick
    reads the clock, a tick whose dial succeeds reconnects the sink: it is
    connected with the new handle, [connectTime] is the clock reading taken
    once the dial has returned, the since-connection counter catches up with
    the drop counter, and the drops of the outage are logged when there were
    any. [reconnectTime] and the stored target stay as they were; nothing is
    closed. *)
Theorem tick_successful_dial_reconnects
    (env : Env) (o : NetOutput) (p h : string) (d : nat) :
  connected o = false ->
  reconnectTime o < now env ->
  GoStrings.Index p ":" = None ->
  netConn o = String.append p (String ":" h) ->
  dial env p h = inl d ->
  let r := loop_iteration RecvTick env o in
  result r = Ok false /\
  events r =
    [EvDial p h; EvLogInfo (LogConnected (netConn o) (now_after_dial env))]
    ++ (if droppedEventCount o =? droppedEventSinceConnection o then []
        else [EvLogInfo (LogDropped
                (Int64.sub (droppedEventCount o)
                           (droppedEventSinceConnection o)))]) /\
  connected (final r) = true /\
  outputSocket (final r) = Some {| fd := d; closed := false |} /\
  connectTime (final r) = now_after_dial env /\
  reconnectTime (final r) = reconnectTime o /\
  netConn (final r) = netConn o /\
  droppedEventCount (final r) = droppedEventCount o /\
  droppedEventSinceConnection (final r) = droppedEventCount o.
Proof.
  intros Hc Ht Hp Hnet Hd r. subst r.
  rewrite loop_iteration_tick_eq.
  rewrite Hc, (Time_After_true _ _ Ht). cbn [negb andb].
  pose proof (SplitN_first_colon p h Hp) as Hsplit. rewrite <- Hnet in Hsplit.
  destruct (after_dial_fields env) as (Hnow & Hdial & _).
  assert (Hd' : dial (after_dial env) p h = inl d) by (rewrite Hdial; exact Hd).
  rewrite (Initialize_dial_ok_eq (after_dial env) o (netConn o) p h d
             (close_is_safe_disconnected o Hc) Hsplit Hd').
  destruct (before_dial_fields (netConn o) p h o)
    as (Hnc & _ & _ & _ & _ & Hdc & Hds & _ & Hrt & _).
  cbn [result final events]. rewrite Hnow.
  unfold marked, marked_events, previous_close_events. rewrite Hc.
  destruct (before_dial (netConn o) p h o); cbn in *. subst.
  destruct (Z.eqb_spec (droppedEventCount o) (droppedEventSinceConnection o));
    cbn; repeat apply conj; congruence.
Qed.

Lemma tick_successful_dial_reconnects_witness :
  connected sink_dropped = false /\
  reconnectTime sink_dropped < now env_up /\
  GoStrings.Index "tcp" ":" = None /\
  netConn sink_dropped = "tcp:127.0.0.1:9999"%string /\
  dial env_up "tcp" "127.0.0.1:9999" = inl 3%nat /\
  let r := loop_iteration RecvTick env_up sink_dropped in
  result r = Ok false /\
  events r =
    [EvDial "tcp" "127.0.0.1:9999";
     EvLogInfo (LogConnected (netConn sink_dropped) (now_after_dial env_up))]
    ++ (if droppedEventCount sink_dropped
             =? droppedEventSinceConnection sink_dropped then []
        else [EvLogInfo (LogDropped
                (Int64.sub (droppedEventCount sink_dropped)
                           (droppedEventSinceConnection sink_dropped)))]) /\
  connected (final r) = true /\
  outputSocket (final r) = Some {| fd := 3; closed := false |} /\
  connectTime (final r) = now_after_dial env_up /\
  reconnectTime (final r) = reconnectTime sink_dropped /\
  netConn (final r) = netConn sink_dropped /\
  droppedEventCount (final r) = droppedEventCount sink_dropped /\
  droppedEventSinceConnection (final r) = droppedEventCount sink_dropped.
Proof.
  split; [reflexivity|]. split; [reflexivity|]. split; [reflexivity|].
  split; [reflexivity|]. split; [reflexivity|].
  exact (tick_successful_dial_reconnects env_up sink_dropped
           "tcp" "127.0.0.1:9999" 3%nat
           eq_refl eq_refl eq_refl eq_refl eq_refl).
Defined.

(** X8: after a failed write the sink is not dialled again by any tick whose
    clock reads at most the time of the failure plus 5 seconds: such a tick
    leaves the sink and the trace alone. *)
Theorem no_redial_within_five_seconds_of_write_failure
    (env env' : Env) (o : NetOutput) (m : string) (c : Conn) (e : error) :
  connected o = true ->
  outputSocket o = Some c ->
  Conn_Write env c (framed o m) = Some e ->
  now env' <= now env + 5 * 1000000000 ->
  loop_iteration RecvTick env' (final (output m env o)) =
    {| result := Ok false; final := final (output m env o); events := [] |}.
Proof.
  intros Hc Hs Hw Ht.
  rewrite loop_iteration_tick_eq.
  rewrite (output_write_failed_eq env o m c e Hc Hs Hw). cbn [final].
  assert (Hrt : reconnectTime (rescheduled (now env) o)
                = now env + 5 * 1000000000).
  { unfold rescheduled. destruct (connected o);
      destruct (previous_closed o); reflexivity. }
  rewrite Hrt, (Time_After_false _ _ Ht), andb_false_r. reflexivity.
Qed.

Lemma no_redial_within_five_seconds_of_write_failure_witness :
  connected sink_tcp = true /\
  outputSocket sink_tcp = Some {| fd := 3; closed := false |} /\
  Conn_Write env_down {| fd := 3; closed := false |} (framed sink_tcp "event")
    = Some (NetError "broken pipe") /\
  now (env_up_at 5000002000) <= now env_down + 5 * 1000000000 /\
  loop_iteration RecvTick (env_up_at 5000002000)
      (final (output "event" env_down sink_tcp)) =
    {| result := Ok false;
       final := final (output "event" env_down sink_tcp);
       events := [] |}.
Proof.
  assert (Ht : now (env_up_at 5000002000) <= now env_down + 5 * 1000000000)
    by (vm_compute; intros H; discriminate H).
  split; [reflexivity|]. split; [reflexivity|]. split; [reflexivity|].
  split; [exact Ht|].
  exact (no_redial_within_five_seconds_of_write_failure
           env_down (env_up_at 5000002000) sink_tcp "event"
           {| fd := 3; closed := false |} (NetError "broken pipe")
           eq_refl eq_refl eq_refl Ht).
Defined.

(** X9: drop accounting over an outage. A disconnected sink whose two drop
    counters agree (as every successful connection leaves them) is offered a
    non-empty sequence of messages and then reconnects: the connection logs
    exactly the number of messages offered during the outage, and both
    counters end at the old total plus that number. *)
Theorem reconnect_reports_the_drops_of_the_outage
    (ems : list (Env * string)) (env : Env) (o : NetOutput)
    (p h : string) (d : nat) :
  connected o = false ->
  droppedEventSinceConnection o = droppedEventCount o ->
  0 <= droppedEventCount o ->
  droppedEventCount o + Z.of_nat (List.length ems) <= Int64.max_int ->
  ems <> [] ->
  GoStrings.Index p ":" = None ->
  dial env p h = inl d ->
  let spec := String.append p (String ":" h) in
  let r := Initialize spec env (final (loop (messages ems) o)) in
  result r = Ok None /\
  events r = [EvDial p h;
              EvLogInfo (LogConnected spec (now env));
              EvLogInfo (LogDropped (Z.of_nat (List.length ems)))] /\
  connected (final r) = true /\
  droppedEventCount (final r)
    = droppedEventCount o + Z.of_nat (List.length ems) /\
  droppedEventSinceConnection (final r)
    = droppedEventCount o + Z.of_nat (List.length ems).
Proof.
  intros Hc Hds Hlo Hhi Hne Hp Hd spec r. subst r spec.
  assert (Hmin : Int64.min_int <= droppedEventCount o)
    by (unfold Int64.min_int; lia).
  rewrite (loop_messages_disconnected_eq ems o Hc Hmin Hhi). cbn [final].
  set (n := Z.of_nat (List.length ems)) in *.
  assert (Hn : 0 < n) by (destruct ems; [congruence|subst n; cbn; lia]).
  set (o' := set_droppedEventCount (droppedEventCount o + n) o).
  assert (Hc' : connected o' = false) by (destruct o; exact Hc).
  pose proof (SplitN_first_colon p h Hp) as Hsplit.
  rewrite (Initialize_dial_ok_eq env o' _ p h d
             (close_is_safe_disconnected o' Hc') Hsplit Hd).
  destruct (before_dial_fields (String.append p (String ":" h)) p h o')
    as (Hnc & _ & _ & _ & _ & Hdc & Hds' & _).
  cbn [result final events].
  unfold marked, marked_events, previous_close_events. rewrite Hc'.
  assert (Hsub : Int64.sub (droppedEventCount o + n) (droppedEventCount o) = n).
  { unfold Int64.sub. replace (droppedEventCount o + n - droppedEventCount o)
      with n by lia.
    apply Int64_wrap_in_range. unfold Int64.in_range, Int64.min_int in *.
    unfold Int64.max_int in *. lia. }
  assert (Hdc' : droppedEventCount o' = droppedEventCount o + n)
    by (destruct o; reflexivity).
  assert (Hds'' : droppedEventSinceConnection o' = droppedEventCount o)
    by (destruct o; exact Hds).
  rewrite Hdc' in Hdc. rewrite Hds'' in Hds'.
  destruct (before_dial _ p h o'); cbn in Hnc, Hdc, Hds' |- *. subst.
  destruct (Z.eqb_spec (droppedEventCount o + n) (droppedEventCount o));
    [lia|].
  cbn. rewrite Hsub. repeat apply conj; reflexivity.
Qed.

Lemma reconnect_reports_the_drops_of_the_outage_witness :
  connected sink_lost = false /\
  droppedEventSinceConnection sink_lost = droppedEventCount sink_lost /\
  0 <= droppedEventCount sink_lost /\
  droppedEventCount sink_lost
    + Z.of_nat (List.length [(env_up, "a"%string); (env_down, "b"%string)])
    <= Int64.max_int /\
  [(env_up, "a"%string); (env_down, "b"%string)] <> [] /\
  GoStrings.Index "tcp" ":" = None /\
  dial env_up "tcp" "127.0.0.1:9999" = inl 3%nat /\
  let spec := "tcp:127.0.0.1:9999"%string in
  let r := Initialize spec env_up
             (final (loop (messages [(env_up, "a"%string);
                                     (env_down, "b"%string)]) sink_lost)) in
  result r = Ok None /\
  events r = [EvDial "tcp" "127.0.0.1:9999";
              EvLogInfo (LogConnected spec (now env_up));
              EvLogInfo (LogDropped
                (Z.of_nat (List.length [(env_up, "a"%string);
                                        (env_down, "b"%string)])))] /\
  connected (final r) = true /\
  droppedEventCount (final r)
    = droppedEventCount sink_lost
      + Z.of_nat (List.length [(env_up, "a"%string); (env_down, "b"%string)]) /\
  droppedEventSinceConnection (final r)
    = droppedEventCount sink_lost
      + Z.of_nat (List.length [(env_up, "a"%string); (env_down, "b"%string)]).
Proof.
  assert (H3 : 0 <= droppedEventCount sink_lost)
    by (vm_compute; intros H; discriminate H).
  assert (H4 : droppedEventCount sink_lost
                 + Z.of_nat (List.length
                     [(env_up, "a"%string); (env_down, "b"%string)])
               <= Int64.max_int)
    by (vm_compute; intros H; discriminate H).
  assert (H5 : [(env_up, "a"%string); (env_down, "b"%string)] <> [])
    by (intros H; discriminate H).
  split; [reflexivity|]. split; [reflexivity|]. split; [exact H3|].
  split; [exact H4|]. split; [exact H5|]. split; [reflexivity|].
  split; [reflexivity|].
  exact (reconnect_reports_the_drops_of_the_outage
           [(env_up, "a"%string); (env_down, "b"%string)] env_up sink_lost
           "tcp" "127.0.0.1:9999" 3%nat
           eq_refl eq_refl H3 H4 H5 eq_refl eq_refl).
Defined.

(** ** What the methods leave alone *)

Lemma set_reconnectTime_fields (t : Time) (o : NetOutput) :
  let f := set_reconnectTime t o in
  netConn f = netConn o /\ protocolName f = protocolName o /\
  remoteHostname f = remoteHostname o /\ addNewline f = addNewline o /\
  connectTime f = connectTime o /\ connected f = connected o /\
  outputSocket f = outputSocket o /\
  droppedEventCount f = droppedEventCount o /\
  droppedEventSinceConnection f = droppedEventSinceConnection o /\
  Config f = Config o.
Proof. destruct o; cbn; repeat apply conj; reflexivity. Qed.

(** [closeAndScheduleReconnection], in every outcome, changes nothing but the
    handle, [connected] and [reconnectTime]. *)
Lemma closeAndScheduleReconnection_frame (env : Env) (o : NetOutput) :
  let f := final (closeAndScheduleReconnection env o) in
  netConn f = netConn o /\ protocolName f = protocolName o /\
  remoteHostname f = remoteHostname o /\ addNewline f = addNewline o /\
  connectTime f = connectTime o /\
  droppedEventCount f = droppedEventCount o /\
  droppedEventSinceConnection f = droppedEventSinceConnection o /\
  Config f = Config o.
Proof.
  destruct o as [nc rh pn [k|] an ct rt [|] dc ds cfg];
    unfold closeAndScheduleReconnection; go_step;
    repeat apply conj; reflexivity.
Qed.

(** [output], in every outcome, leaves the identity of the sink, the framing
    flag, [connectTime], the since-connection counter and the configuration
    alone, and either keeps the drop counter or, on a disconnected sink,
    adds one to it. *)
Lemma output_frame (env : Env) (o : NetOutput) (m : string) :
  let f := final (output m env o) in
  netConn f = netConn o /\ protocolName f = protocolName o /\
  remoteHostname f = remoteHostname o /\ addNewline f = addNewline o /\
  connectTime f = connectTime o /\
  droppedEventSinceConnection f = droppedEventSinceConnection o /\
  Config f = Config o /\
  (droppedEventCount f = droppedEventCount o \/
   connected o = false /\
   droppedEventCount f = Int64.add (droppedEventCount o) 1).
Proof.
  destruct (connected o) eqn:Hc.
  - destruct (outputSocket o) as [k|] eqn:Hs.
    + destruct (Conn_Write env k (framed o m)) as [e|] eqn:Hw.
      * rewrite (output_write_failed_eq env o m k e Hc Hs Hw). cbn [final].
        unfold rescheduled, previous_closed. rewrite Hc, Hs.
        destruct o; cbn; repeat apply conj; try reflexivity. now left.
      * rewrite (output_write_ok_eq env o m k Hc Hs Hw). cbn [final].
        repeat apply conj; try reflexivity. now left.
    + rewrite (output_nil_eq env o m Hc Hs). cbn [final].
      repeat apply conj; try reflexivity. now left.
  - rewrite (output_disconnected_eq env o m Hc). cbn [final].
    destruct o; cbn; repeat apply conj; try reflexivity. right. now split.
Qed.

(** [Initialize], in every outcome (success, refused dial, either panic),
    leaves the drop total, [reconnectTime] and the configuration alone, never
    clears the framing flag, and stores the specification it was given unless
    it stops at a nil handle. *)
Lemma Initialize_frame (env : Env) (o : NetOutput) (spec : string) :
  let f := final (Initialize spec env o) in
  droppedEventCount f = droppedEventCount o /\
  reconnectTime f = reconnectTime o /\
  Config f = Config o /\
  (addNewline o = true -> addNewline f = true) /\
  (netConn f = spec \/ f = o).
Proof.
  destruct (connected o) eqn:Hc; [destruct (outputSocket o) as [k|] eqn:Hs|].
  2:{ rewrite (Initialize_nil_eq env o spec Hc Hs). cbn [final].
      repeat apply conj; auto. }
  all: assert (Hsafe : close_is_safe o) by (intros H; congruence);
    destruct (SplitN_2_shape spec) as [Hsplit | (p & h & Hsplit)].
  all: try (rewrite (Initialize_one_part_eq env o spec spec Hsafe Hsplit);
            cbn [final]; unfold previous_closed; rewrite ?Hc, ?Hs;
            destruct o; cbn in *; repeat apply conj; auto).
  all: destruct (before_dial_fields spec p h o)
         as (Hnc & _ & _ & Han & _ & Hdc & _ & _ & Hrt & Hcfg);
       destruct (dial env p h) as [d|e] eqn:Hd.
  all: try (rewrite (Initialize_dial_ok_eq env o spec p h d Hsafe Hsplit Hd);
            cbn [final]; unfold marked;
            destruct (before_dial spec p h o); cbn in *; subst;
            destruct (_ =? _); cbn; repeat apply conj; auto;
            intros ->; apply orb_true_r).
  all: rewrite (Initialize_dial_failed_eq env o spec p h e Hsafe Hsplit Hd);
       cbn [final]; destruct (before_dial spec p h o); cbn in *; subst;
       repeat apply conj; auto; intros ->; apply orb_true_r.
Qed.

(** X10: [Initialize], whatever its outcome (success, refused dial, panic on
    a specification without colon or on a nil handle), never changes the
    running drop total, the scheduled reconnect time or the configuration,
    and never clears the framing flag once it is set. *)
Theorem Initialize_never_resets_counter_backoff_or_flag
    (env : Env) (o : NetOutput) (spec : string) :
  droppedEventCount (final (Initialize spec env o)) = droppedEventCount o /\
  reconnectTime (final (Initialize spec env o)) = reconnectTime o /\
  Config (final (Initialize spec env o)) = Config o /\
  (addNewline o = true -> addNewline (final (Initialize spec env o)) = true).
Proof.
  destruct (Initialize_frame env o spec) as (H1 & H2 & H3 & H4 & _).
  auto.
Qed.

(** ** What a run of the loop keeps *)

(** One iteration, in every outcome: the stored specification and the
    configuration are kept, the framing flag is not cleared, and the drop
    counter moves only when a message is received on a disconnected sink. *)
Lemma loop_iteration_frame (env : Env) (r : Received) (o : NetOutput) :
  let f := final (loop_iteration r env o) in
  netConn f = netConn o /\
  Config f = Config o /\
  (addNewline o = true -> addNewline f = true) /\
  (droppedEventCount f = droppedEventCount o \/
   is_message (env, r) = true /\ connected o = false /\
   droppedEventCount f = Int64.add (droppedEventCount o) 1).
Proof.
  destruct r as [m| |sg].
  - pose proof (output_frame env o m) as H. cbv zeta in H.
    destruct H as (Hnc & _ & _ & Han & _ & _ & Hcfg & Hdc).
    rewrite loop_iteration_message_cases.
    destruct (output m env o) as [[[e|]|k] o1 t1]; cbn [final] in *;
      try destruct (Config o1) as [c|] eqn:Hc1; cbn [final];
      (repeat apply conj;
         [exact Hnc | congruence | intros Ho; congruence | ]);
      (destruct Hdc as [Hdc|[Hc Hdc]]; [left; exact Hdc|right; auto]).
  - rewrite loop_iteration_tick_eq.
    destruct (negb (connected o) && Time_After (now env) (reconnectTime o)).
    2:{ cbn [final]. repeat apply conj; auto. }
    set (env2 := after_dial env).
    pose proof (Initialize_frame env2 o (netConn o)) as H. cbv zeta in H.
    destruct H as (Hdc & _ & Hcfg & Han & Hnc).
    assert (Hnc' : netConn (final (Initialize (netConn o) env2 o)) = netConn o)
      by (destruct Hnc as [H|H]; [exact H|now rewrite H]).
    destruct (Initialize (netConn o) env2 o) as [[[e|]|k] o1 t1];
      cbn [final] in *.
    + pose proof (closeAndScheduleReconnection_frame env2 o1) as H.
      cbv zeta in H. destruct H as (Hnc2 & _ & _ & Han2 & _ & Hdc2 & _ & Hcfg2).
      destruct (closeAndScheduleReconnection env2 o1) as [[[]|k] o2 t2];
        cbn [final] in *; repeat apply conj; try congruence;
        try (left; congruence); intros Ho; rewrite Han2; auto.
    + repeat apply conj; auto.
    + repeat apply conj; auto.
  - rewrite loop_iteration_signal_eq.
    destruct sg; cbn [final]; repeat apply conj; auto.
Qed.

(** A property of the sink kept by every iteration is kept by every run. *)
Lemma loop_preserves (P : NetOutput -> Prop) :
  (forall env r o, P o -> P (final (loop_iteration r env o))) ->
  forall rs o, P o -> P (final (loop rs o)).
Proof.
  intros Hstep rs. induction rs as [|[env r] rs IH]; intros o HP.
  - exact HP.
  - cbn [loop]. specialize (Hstep env r o HP).
    destruct (loop_iteration r env o) as [[[|]|k] o1 t1]; cbn [final] in *;
      try exact Hstep.
    specialize (IH o1 Hstep).
    destruct (loop rs o1) as [b o2 t2]. exact IH.
Qed.

(** X11: no run of the control loop, whatever it receives and however it
    ends, changes the key of the sink (the stored specification, which the
    reconnect check hands back to [Initialize]) or its configuration, or
    clears the framing flag. *)
Theorem loop_keeps_key_configuration_and_flag
    (rs : list (Env * Received)) (o : NetOutput) :
  Key (final (loop rs o)) = Key o /\
  String_ (final (loop rs o)) = String_ o /\
  Config (final (loop rs o)) = Config o /\
  (addNewline o = true -> addNewline (final (loop rs o)) = true).
Proof.
  unfold Key, String_.
  assert (H : netConn (final (loop rs o)) = netConn o /\
              Config (final (loop rs o)) = Config o /\
              (addNewline o = true -> addNewline (final (loop rs o)) = true)).
  { apply (loop_preserves
             (fun f => netConn f = netConn o /\ Config f = Config o /\
                       (addNewline o = true -> addNewline f = true))).
    - intros env r f (Hnc & Hcfg & Han).
      destruct (loop_iteration_frame env r f) as (Hnc' & Hcfg' & Han' & _).
      repeat apply conj; try congruence. auto.
    - auto. }
  destruct H as (Hnc & Hcfg & Han). auto.
Qed.

Lemma message_count_cons (env : Env) (r : Received) (rs : list (Env * Received)) :
  message_count ((env, r) :: rs) =
    ((if is_message (env, r) then 1 else 0) + message_count rs)%nat.
Proof.
  unfold message_count. cbn [filter]. destruct (is_message (env, r)); reflexivity.
Qed.

(** X12: over any run of the control loop the drop counter never decreases
    and grows by at most the number of messages received, as long as that
    number fits below the largest [int64]: ticks, reconnections, signals and
    failed writes never count as drops. *)
Theorem loop_drop_counter_is_monotone_and_bounded
    (rs : list (Env * Received)) (o : NetOutput) :
  Int64.min_int <= droppedEventCount o ->
  droppedEventCount o + Z.of_nat (message_count rs) <= Int64.max_int ->
  droppedEventCount o <= droppedEventCount (final (loop rs o))
    <= droppedEventCount o + Z.of_nat (message_count rs).
Proof.
  revert o. induction rs as [|[env r] rs IH]; intros o Hlo Hhi.
  - cbn. lia.
  - rewrite message_count_cons in *. cbn [loop].
    destruct (loop_iteration_frame env r o) as (_ & _ & _ & Hdc).
    assert (Hstep : droppedEventCount o
                      <= droppedEventCount (final (loop_iteration r env o))
                      <= droppedEventCount o
                         + Z.of_nat (if is_message (env, r) then 1 else 0)).
    { destruct Hdc as [->|(Hm & _ & ->)]; [lia|].
      rewrite Hm in *. rewrite Int64_add_one; lia. }
    assert (Hrest : droppedEventCount (final (loop_iteration r env o))
                      + Z.of_nat (message_count rs) <= Int64.max_int) by lia.
    destruct (loop_iteration r env o) as [[[|]|k] o1 t1]; cbn [final] in *;
      try lia.
    specialize (IH o1 ltac:(lia) Hrest).
    destruct (loop rs o1) as [b o2 t2]. cbn [final] in *. lia.
Qed.

Lemma loop_drop_counter_is_monotone_and_bounded_witness :
  Int64.min_int <= droppedEventCount sink_tcp /\
  droppedEventCount sink_tcp
    + Z.of_nat (message_count
        [(env_down, RecvMessage "a"); (env_down, RecvTick);
         (env_down, RecvMessage "b")]) <= Int64.max_int /\
  droppedEventCount sink_tcp
    <= droppedEventCount
         (final (loop [(env_down, RecvMessage "a"); (env_down, RecvTick);
                       (env_down, RecvMessage "b")] sink_tcp))
    <= droppedEventCount sink_tcp
       + Z.of_nat (message_count
           [(env_down, RecvMessage "a"); (env_down, RecvTick);
            (env_down, RecvMessage "b")]).
Proof.
  assert (H1 : Int64.min_int <= droppedEventCount sink_tcp)
    by (vm_compute; intros H; discriminate H).
  assert (H2 : droppedEventCount sink_tcp
    + Z.of_nat (message_count
        [(env_down, RecvMessage "a"); (env_down, RecvTick);
         (env_down, RecvMessage "b")]) <= Int64.max_int)
    by (vm_compute; intros H; discriminate H).
  split; [exact H1|]. split; [exact H2|].
  exact (loop_drop_counter_is_monotone_and_bounded
           [(env_down, RecvMessage "a"); (env_down, RecvTick);
            (env_down, RecvMessage "b")] sink_tcp H1 H2).
Defined.

(** ** Panic freedom of the control loop *)

(** [output] panics only on a connected sink whose handle is nil. *)
Lemma output_returns_under_invariant (env : Env) (o : NetOutput) (m : string) :
  connected_implies_valid o ->
  exists v, result (output m env o) = Ok v.
Proof.
  intros Hinv. destruct (connected o) eqn:Hc.
  - destruct (Hinv Hc) as [c [Hs _]].
    destruct (Conn_Write env c (framed o m)) as [e|] eqn:Hw.
    + rewrite (output_write_failed_eq env o m c e Hc Hs Hw). eexists; reflexivity.
    + rewrite (output_write_ok_eq env o m c Hc Hs Hw). eexists; reflexivity.
  - rewrite (output_disconnected_eq env o m Hc). eexists; reflexivity.
Qed.

(** One iteration on a sink that is ready for the loop returns, and leaves
    the sink ready. *)
Lemma loop_iteration_ready (env : Env) (r : Received) (o : NetOutput) :
  loop_ready o ->
  (exists b, result (loop_iteration r env o) = Ok b) /\
  loop_ready (final (loop_iteration r env o)).
Proof.
  intros (Hinv & Hcfg & p & h & Hp & Hnet).
  destruct (loop_iteration_frame env r o) as (Hnc & Hcf & _ & _).
  assert (Hrest : Config (final (loop_iteration r env o)) <> None /\
                  has_target (final (loop_iteration r env o))).
  { split; [congruence|]. exists p, h. split; [exact Hp|congruence]. }
  destruct Hrest as (Hcfg' & Htgt').
  unfold loop_ready. cut ((exists b, result (loop_iteration r env o) = Ok b) /\
    connected_implies_valid (final (loop_iteration r env o))); [tauto|].
  clear Hcfg' Htgt' Hnc Hcf.
  destruct r as [m| |sg].
  - pose proof (output_returns_under_invariant env o m Hinv) as [v Hv].
    pose proof (output_preserves_invariant env o m Hinv) as Hinv'.
    pose proof (output_frame env o m) as Hf. cbv zeta in Hf.
    destruct Hf as (_ & _ & _ & _ & _ & _ & Hc & _).
    rewrite loop_iteration_message_cases.
    destruct (output m env o) as [b o1 t1]. cbn [result final] in *. subst b.
    destruct v as [e|]; [|split; [eexists; reflexivity|exact Hinv']].
    destruct (Config o1) as [c|] eqn:Hc1; [|congruence].
    split; [eexists; reflexivity|exact Hinv'].
  - rewrite loop_iteration_tick_eq.
    destruct (connected o) eqn:Hc; cbn [negb andb].
    { split; [eexists; reflexivity|exact Hinv]. }
    destruct (Time_After (now env) (reconnectTime o)).
    2:{ split; [eexists; reflexivity|exact Hinv]. }
    pose proof (close_is_safe_disconnected o Hc) as Hsafe.
    pose proof (SplitN_first_colon p h Hp) as Hsplit. rewrite <- Hnet in Hsplit.
    set (env2 := after_dial env).
    destruct (dial env2 p h) as [d|e] eqn:Hd.
    + pose proof (Initialize_dial_ok_establishes_invariant env2 o (netConn o)
                    p h d Hsafe Hsplit Hd) as Hinv'.
      rewrite (Initialize_dial_ok_eq env2 o (netConn o) p h d Hsafe Hsplit Hd)
        in *.
      cbn [final] in *. split; [eexists; reflexivity|exact Hinv'].
    + destruct (Initialize_dial_failed_fields env2 o (netConn o) p h e
                  Hsafe Hsplit Hd) as (_ & _ & Hc').
      rewrite (Initialize_dial_failed_eq env2 o (netConn o) p h e Hsafe Hsplit Hd)
        in *.
      cbn [final] in *. rewrite Hc in Hc'.
      pose proof (close_is_safe_disconnected _ Hc') as Hsafe'.
      pose proof (closeAndScheduleReconnection_disconnects env2 _ Hsafe') as Hdis.
      rewrite (closeAndScheduleReconnection_eq env2 _ Hsafe') in *.
      cbn [final] in *. split; [eexists; reflexivity|].
      intros Hcon. congruence.
  - rewrite loop_iteration_signal_eq.
    destruct sg; (split; [eexists; reflexivity|exact Hinv]).
Qed.

(** Every run on a sink that is ready for the loop returns or keeps looping,
    and leaves the sink ready. *)
Lemma loop_ready_run (rs : list (Env * Received)) :
  forall o, loop_ready o ->
  (exists b, result (loop rs o) = Ok b) /\ loop_ready (final (loop rs o)).
Proof.
  induction rs as [|[env r] rs IH]; intros o Hr.
  - split; [eexists; reflexivity|exact Hr].
  - cbn [loop]. destruct (loop_iteration_ready env r o Hr) as ([b Hb] & Hr1).
    destruct (loop_iteration r env o) as [b1 o1 t1]. cbn [result final] in *.
    subst b1. destruct b as [|].
    + split; [eexists; reflexivity|exact Hr1].
    + destruct (IH o1 Hr1) as ([b2 Hb2] & Hr2).
      destruct (loop rs o1) as [b3 o2 t2]. cbn [result final] in *.
      split; [eexists; exact Hb2|exact Hr2].
Qed.

(** A successful [Initialize] of a configured sink makes it ready. *)
Lemma Initialize_dial_ok_makes_ready
    (env : Env) (o : NetOutput) (p h : string) (d : nat) :
  close_is_safe o ->
  Config o <> None ->
  GoStrings.Index p ":" = None ->
  dial env p h = inl d ->
  loop_ready (final (Initialize (String.append p (String ":" h)) env o)).
Proof.
  intros Hsafe Hcfg Hp Hd.
  pose proof (SplitN_first_colon p h Hp) as Hsplit.
  pose proof (Initialize_dial_ok_establishes_invariant env o _ p h d
                Hsafe Hsplit Hd) as Hinv.
  destruct (Initialize_frame env o (String.append p (String ":" h)))
    as (_ & _ & Hc & _ & _).
  repeat apply conj.
  - exact Hinv.
  - congruence.
  - exists p, h. split; [exact Hp|].
    rewrite (Initialize_dial_ok_eq env o _ p h d Hsafe Hsplit Hd).
    cbn [final].
    destruct (before_dial_fields (String.append p (String ":" h)) p h o)
      as (Hnc & _).
    unfold marked. destruct (before_dial _ p h o); cbn in *.
    destruct (_ =? _); exact Hnc.
Qed.

(** X13: once [Initialize] has succeeded on a sink that has a configuration,
    [Go] starts the goroutine, and when [Go] was given a non-nil [exitCond]
    no run of the goroutine panics, whatever messages, ticks and signals it
    receives and whatever the transport answers: every run is still looping
    or has returned, and it leaves a sink on which connected implies a valid
    handle, ready for further receptions. With a nil [exitCond] the loop
    itself still does not panic, but the goroutine does when it returns, in
    the deferred [exitCond.Signal()]. *)
Theorem goroutine_never_panics_after_successful_Initialize
    (rs : list (Env * Received)) (env : Env) (o : NetOutput)
    (p h : string) (d : nat) (exitCond : Cond) :
  close_is_safe o ->
  Config o <> None ->
  GoStrings.Index p ":" = None ->
  dial env p h = inl d ->
  let o' := final (Initialize (String.append p (String ":" h)) env o) in
  result (Go env o') = Ok None /\
  (exists b, result (goroutine (Some exitCond) rs o') = Ok b) /\
  connected_implies_valid (final (goroutine (Some exitCond) rs o')) /\
  loop_ready (final (goroutine (Some exitCond) rs o')) /\
  (exists b, result (loop rs o') = Ok b) /\
  (result (loop rs o') = Ok true ->
   result (goroutine None rs o') = Panic NilDereference).
Proof.
  intros Hsafe Hcfg Hp Hd o'.
  pose proof (Initialize_dial_ok_makes_ready env o p h d Hsafe Hcfg Hp Hd)
    as Hready. fold o' in Hready.
  destruct (loop_ready_run rs o' Hready) as ([b Hb] & Hr).
  assert (Hgo : result (Go env o') = Ok None).
  { rewrite Go_eq. subst o'. pose proof (SplitN_first_colon p h Hp) as Hsplit.
    rewrite (Initialize_dial_ok_eq env o _ p h d Hsafe Hsplit Hd).
    cbn [final]. unfold marked.
    destruct (before_dial _ p h o); cbn. destruct (_ =? _); reflexivity. }
  assert (Hfin : final (goroutine (Some exitCond) rs o') = final (loop rs o')).
  { unfold goroutine, deferred_calls.
    destruct (loop rs o') as [[[|]|k] o1 t1]; reflexivity. }
  assert (Hres : result (goroutine (Some exitCond) rs o') = Ok b).
  { unfold goroutine, deferred_calls.
    destruct (loop rs o') as [[[|]|k] o1 t1]; cbn [result] in *; exact Hb. }
  split; [exact Hgo|]. split; [exists b; exact Hres|].
  rewrite Hfin. split; [apply Hr|]. split; [exact Hr|].
  split; [exists b; exact Hb|].
  intros Hret. unfold goroutine, deferred_calls.
  destruct (loop rs o') as [[[|]|k] o1 t1]; cbn [result] in *;
    try discriminate Hret. reflexivity.
Qed.

Lemma goroutine_never_panics_after_successful_Initialize_witness :
  close_is_safe sink_new /\
  Config sink_new <> None /\
  GoStrings.Index "tcp" ":" = None /\
  dial env_up "tcp" "127.0.0.1:9999" = inl 3%nat /\
  let o' := final (Initialize "tcp:127.0.0.1:9999" env_up sink_new) in
  let rs := [(env_down, RecvMessage "a");
             (env_down_at 6000000000, RecvTick);
             (env_up_at 12000000000, RecvTick);
             (env_up_at 13000000000, RecvSignal SIGTERM)] in
  result (Go env_up o') = Ok None /\
  (exists b, result (goroutine (Some 1%nat) rs o') = Ok b) /\
  connected_implies_valid (final (goroutine (Some 1%nat) rs o')) /\
  loop_ready (final (goroutine (Some 1%nat) rs o')) /\
  (exists b, result (loop rs o') = Ok b) /\
  (result (loop rs o') = Ok true ->
   result (goroutine None rs o') = Panic NilDereference).
Proof.
  assert (H1 : close_is_safe sink_new) by (intros H; discriminate H).
  assert (H2 : Config sink_new <> None) by (intros H; discriminate H).
  split; [exact H1|]. split; [exact H2|]. split; [reflexivity|].
  split; [reflexivity|].
  exact (goroutine_never_panics_after_successful_Initialize
           [(env_down, RecvMessage "a");
            (env_down_at 6000000000, RecvTick);
            (env_up_at 12000000000, RecvTick);
            (env_up_at 13000000000, RecvSignal SIGTERM)]
           env_up sink_new "tcp" "127.0.0.1:9999" 3%nat 1%nat
           H1 H2 eq_refl eq_refl).
Defined.

(** The goroutine of the witness returns on the signal and runs its deferred
    calls once; given a nil [exitCond] it panics there instead. *)
Example goroutine_returns_and_signals_once :
  let rs := [(env_down, RecvMessage "a");
             (env_up_at 13000000000, RecvSignal SIGTERM);
             (env_up, RecvMessage "b")] in
  goroutine (Some 1%nat) rs sink_tcp =
    {| result := Ok true;
       final := final (output "a" env_down sink_tcp);
       events := events (output "a" env_down sink_tcp)
                 ++ [EvLogError (NetError "broken pipe");
                     EvLogInfo LogSigterm; EvTickerStop; EvExitSignal] |} /\
  result (goroutine None rs sink_tcp) = Panic NilDereference /\
  filter (fun e => match e with EvExitSignal => true | _ => false end)
    (events (goroutine None rs sink_tcp)) = [].
Proof. cbv zeta. repeat apply conj; vm_compute; reflexivity. Qed.

(** The run of the witness: a failed write, a refused reconnection, and a
    successful one later; the two log lines of the ticks carry the clock
    readings taken after the dials. *)
Example loop_outage_and_recovery :
  events (loop [(env_down, RecvMessage "a");
                (env_down_at 6000000000, RecvTick);
                (env_up_at 12000000000, RecvTick)] sink_tcp) =
    [EvWrite 3 (String.append "a" CRLF);
     EvClose 3;
     EvLogInfo (LogLostConnection "tcp:127.0.0.1:9999" 5000002000);
     EvLogError (NetError "broken pipe");
     EvDial "tcp" "127.0.0.1:9999";
     EvLogInfo (LogLostConnection "tcp:127.0.0.1:9999" 11000000700);
     EvDial "tcp" "127.0.0.1:9999";
     EvLogInfo (LogConnected "tcp:127.0.0.1:9999" 12000000500)].
Proof. vm_compute. reflexivity. Qed.

(** ** A sink without configuration *)

(** X14: on a sink built with a nil configuration, a message whose write
    fails makes the loop iteration panic on [o.Config.DryRun], after [output]
    has already closed the transport, disconnected the sink and scheduled
    the reconnection; nothing is logged as an error. *)
Theorem nil_Config_panics_on_write_failure
    (env : Env) (o : NetOutput) (m : string) (c : Conn) (e : error) :
  Config o = None ->
  connected o = true ->
  outputSocket o = Some c ->
  Conn_Write env c (framed o m) = Some e ->
  let r := loop_iteration (RecvMessage m) env o in
  result r = Panic NilDereference /\
  final r = final (output m env o) /\
  events r = events (output m env o) /\
  connected (final r) = false /\
  reconnectTime (final r) = now env + 5 * 1000000000 /\
  filter is_error_log (events r) = [].
Proof.
  intros Hcfg Hc Hs Hw r. subst r.
  rewrite loop_iteration_message_cases.
  rewrite (output_write_failed_eq env o m c e Hc Hs Hw).
  assert (Hcfg' : Config (rescheduled (now env) o) = None).
  { unfold rescheduled, previous_closed. rewrite Hc, Hs.
    destruct o; exact Hcfg. }
  rewrite Hcfg'. cbn [result final events].
  unfold rescheduled, previous_closed. rewrite Hc, Hs.
  repeat apply conj; reflexivity.
Qed.

Lemma nil_Config_panics_on_write_failure_witness :
  Config (set_Config None sink_tcp) = None /\
  connected (set_Config None sink_tcp) = true /\
  outputSocket (set_Config None sink_tcp) = Some {| fd := 3; closed := false |} /\
  Conn_Write env_down {| fd := 3; closed := false |}
    (framed (set_Config None sink_tcp) "event") = Some (NetError "broken pipe") /\
  let r := loop_iteration (RecvMessage "event") env_down
             (set_Config None sink_tcp) in
  result r = Panic NilDereference /\
  final r = final (output "event" env_down (set_Config None sink_tcp)) /\
  events r = events (output "event" env_down (set_Config None sink_tcp)) /\
  connected (final r) = false /\
  reconnectTime (final r) = now env_down + 5 * 1000000000 /\
  filter is_error_log (events r) = [].
Proof.
  split; [reflexivity|]. split; [reflexivity|]. split; [reflexivity|].
  split; [reflexivity|].
  exact (nil_Config_panics_on_write_failure env_down (set_Config None sink_tcp)
           "event" {| fd := 3; closed := false |} (NetError "broken pipe")
           eq_refl eq_refl eq_refl eq_refl).
Defined.

(** ** Closing *)

(** X15: [closeAndScheduleReconnection] closes the transport at most once.
    Called a second time (as the reconnect check does after a refused dial)
    it closes nothing and only moves [reconnectTime] to 5 seconds after the
    second call. *)
Theorem closeAndScheduleReconnection_closes_once
    (env env' : Env) (o : NetOutput) :
  close_is_safe o ->
  let r1 := closeAndScheduleReconnection env o in
  let r2 := closeAndScheduleReconnection env' (final r1) in
  result r1 = Ok tt /\
  (List.length (filter is_close (events r1)) <= 1)%nat /\
  connected (final r1) = false /\
  result r2 = Ok tt /\
  filter is_close (events r2) = [] /\
  final r2 = set_reconnectTime (now env' + 5 * 1000000000) (final r1).
Proof.
  intros Hsafe r1 r2. subst r2 r1.
  pose proof (closeAndScheduleReconnection_disconnects env o Hsafe) as Hdis.
  rewrite (closeAndScheduleReconnection_eq env o Hsafe) in *.
  cbn [result final events] in *.
  rewrite (closeAndScheduleReconnection_eq env' _
             (close_is_safe_disconnected _ Hdis)).
  cbn [result final events].
  repeat apply conj; try reflexivity.
  - unfold previous_close_events.
    destruct (connected o); [destruct (outputSocket o)|]; cbn; lia.
  - exact Hdis.
  - unfold previous_close_events. rewrite Hdis. reflexivity.
  - unfold rescheduled at 1. rewrite Hdis. reflexivity.
Qed.

Lemma closeAndScheduleReconnection_closes_once_witness :
  close_is_safe sink_tcp /\
  let r1 := closeAndScheduleReconnection env_down sink_tcp in
  let r2 := closeAndScheduleReconnection env_up (final r1) in
  result r1 = Ok tt /\
  (List.length (filter is_close (events r1)) <= 1)%nat /\
  connected (final r1) = false /\
  result r2 = Ok tt /\
  filter is_close (events r2) = [] /\
  final r2 = set_reconnectTime (now env_up + 5 * 1000000000) (final r1).
Proof.
  assert (H : close_is_safe sink_tcp) by (intros _ H; discriminate H).
  split; [exact H|].
  exact (closeAndScheduleReconnection_closes_once env_down env_up sink_tcp H).
Defined.

(** [Initialize] on a disconnected sink closes nothing, in any outcome. *)
Lemma Initialize_disconnected_closes_nothing
    (env : Env) (o : NetOutput) (spec : string) :
  connected o = false ->
  filter is_close (events (Initialize spec env o)) = [].
Proof.
  assert (Hmark : forall t b, filter is_close (marked_events t b) = []).
  { intros t b. unfold marked_events. destruct (_ =? _); reflexivity. }
  intros Hc. pose proof (close_is_safe_disconnected o Hc) as Hsafe.
  destruct (SplitN_2_shape spec) as [Hsplit | (p & h & Hsplit)].
  - rewrite (Initialize_one_part_eq env o spec spec Hsafe Hsplit).
    cbn [events]. unfold previous_close_events. now rewrite Hc.
  - destruct (dial env p h) as [d|e] eqn:Hd.
    + rewrite (Initialize_dial_ok_eq env o spec p h d Hsafe Hsplit Hd).
      cbn [events]. unfold previous_close_events. rewrite Hc.
      cbn [app filter is_close]. apply Hmark.
    + rewrite (Initialize_dial_failed_eq env o spec p h e Hsafe Hsplit Hd).
      cbn [events]. unfold previous_close_events. now rewrite Hc.
Qed.

(** X16: [Initialize] closes the transport of a connected sink before
    anything else and exactly once, whatever the specification (even one
    without colon); on a disconnected sink it never closes anything, so a
    handle that [closeAndScheduleReconnection] has closed is not closed
    again by the reconnection. *)
Theorem Initialize_closes_previous_transport_first
    (env : Env) (o o' : NetOutput) (spec : string) (c : Conn) :
  connected o = true ->
  outputSocket o = Some c ->
  connected o' = false ->
  (exists rest, events (Initialize spec env o) = EvClose (fd c) :: rest /\
                filter is_close rest = []) /\
  filter is_close (events (Initialize spec env o')) = [].
Proof.
  intros Hc Hs Hc'. split; [|now apply Initialize_disconnected_closes_nothing].
  assert (Hmark : forall t b, filter is_close (marked_events t b) = []).
  { intros t b. unfold marked_events. destruct (_ =? _); reflexivity. }
  assert (Hsafe : close_is_safe o) by (intros _; congruence).
  destruct (SplitN_2_shape spec) as [Hsplit | (p & h & Hsplit)].
  - rewrite (Initialize_one_part_eq env o spec spec Hsafe Hsplit).
    cbn [events]. unfold previous_close_events. rewrite Hc, Hs.
    exists []. split; reflexivity.
  - destruct (dial env p h) as [d|e] eqn:Hd.
    + rewrite (Initialize_dial_ok_eq env o spec p h d Hsafe Hsplit Hd).
      cbn [events]. unfold previous_close_events. rewrite Hc, Hs.
      eexists. split; [reflexivity|]. cbn [filter is_close]. apply Hmark.
    + rewrite (Initialize_dial_failed_eq env o spec p h e Hsafe Hsplit Hd).
      cbn [events]. unfold previous_close_events. rewrite Hc, Hs.
      eexists. split; reflexivity.
Qed.

Lemma Initialize_closes_previous_transport_first_witness :
  connected sink_tcp = true /\
  outputSocket sink_tcp = Some {| fd := 3; closed := false |} /\
  connected sink_lost = false /\
  (exists rest,
     events (Initialize "localhost" env_up sink_tcp)
       = EvClose (fd {| fd := 3; closed := false |}) :: rest /\
     filter is_close rest = []) /\
  filter is_close (events (Initialize "localhost" env_up sink_lost)) = [].
Proof.
  split; [reflexivity|]. split; [reflexivity|]. split; [reflexivity|].
  exact (Initialize_closes_previous_transport_first env_up sink_tcp sink_lost
           "localhost" {| fd := 3; closed := false |} eq_refl eq_refl eq_refl).
Defined.

(** ** A new sink *)

(** X17: a sink made by [NewNetOutputfromConfig], whatever the configuration,
    whose first [Initialize] is refused: the connection error is returned,
    the sink is disconnected, [Go] refuses to start the loop, and the first
    message offered is dropped, which makes the drop counter 1 without any
    write. *)
Theorem new_sink_refused_then_drops
    (cfg : option Configuration) (env env' : Env)
    (p h m : string) (e : error) :
  GoStrings.Index p ":" = None ->
  dial env p h = inr e ->
  let spec := String.append p (String ":" h) in
  let i := Initialize spec env (NewNetOutputfromConfig cfg) in
  result i = Ok (Some (ConnectError spec e)) /\
  events i = [EvDial p h] /\
  connected (final i) = false /\
  result (Go env' (final i)) = Ok (Some SocketNotOpen) /\
  result (output m env' (final i)) = Ok None /\
  events (output m env' (final i)) = [] /\
  droppedEventCount (final (output m env' (final i))) = 1 /\
  DroppedEventCount (Statistics (final (output m env' (final i)))) = 1 /\
  Connected (Statistics (final (output m env' (final i)))) = false.
Proof.
  intros Hp Hd spec i. subst i spec.
  pose proof (SplitN_first_colon p h Hp) as Hsplit.
  assert (Hsafe : close_is_safe (NewNetOutputfromConfig cfg))
    by (intros H; discriminate H).
  rewrite (Initialize_dial_failed_eq env _ _ p h e Hsafe Hsplit Hd).
  cbn [result final events]. rewrite Go_eq.
  set (b := before_dial (String.append p (String ":" h)) p h
              (NewNetOutputfromConfig cfg)).
  assert (Hb : connected (set_outputSocket None b) = false /\
               droppedEventCount (set_outputSocket None b) = 0).
  { subst b. unfold before_dial.
    destruct (GoStrings.HasPrefix p "tcp"); split; reflexivity. }
  destruct Hb as (Hc & Hdc).
  rewrite (output_disconnected_eq env' _ m Hc). cbn [result final events].
  rewrite Hdc.
  destruct b; cbn in *. subst.
  repeat apply conj; reflexivity.
Qed.

Lemma new_sink_refused_then_drops_witness :
  GoStrings.Index "tcp" ":" = None /\
  dial env_down "tcp" "127.0.0.1:9999" = inr (NetError "connection refused") /\
  let spec := "tcp:127.0.0.1:9999"%string in
  let i := Initialize spec env_down (NewNetOutputfromConfig None) in
  result i = Ok (Some (ConnectError spec (NetError "connection refused"))) /\
  events i = [EvDial "tcp" "127.0.0.1:9999"] /\
  connected (final i) = false /\
  result (Go env_up (final i)) = Ok (Some SocketNotOpen) /\
  result (output "event" env_up (final i)) = Ok None /\
  events (output "event" env_up (final i)) = [] /\
  droppedEventCount (final (output "event" env_up (final i))) = 1 /\
  DroppedEventCount (Statistics (final (output "event" env_up (final i)))) = 1 /\
  Connected (Statistics (final (output "event" env_up (final i)))) = false.
Proof.
  split; [reflexivity|]. split; [reflexivity|].
  exact (new_sink_refused_then_drops None env_down env_up
           "tcp" "127.0.0.1:9999" "event" (NetError "connection refused")
           eq_refl eq_refl).
Defined.

(** ** Statistics *)

(** X18: the snapshot taken after a successful [Initialize] shows the sink
    as connected, opened at the time of the call, with the protocol and the
    remote target of the specification given, and with the drop total the
    sink had before the call. *)
Theorem Statistics_after_successful_Initialize
    (env : Env) (o : NetOutput) (p h : string) (d : nat) :
  close_is_safe o ->
  GoStrings.Index p ":" = None ->
  dial env p h = inl d ->
  Statistics (final (Initialize (String.append p (String ":" h)) env o)) =
    {| LastOpenTime := now env;
       Protocol := p;
       RemoteHostname := h;
       DroppedEventCount := droppedEventCount o;
       Connected := true |}.
Proof.
  intros Hsafe Hp Hd.
  pose proof (SplitN_first_colon p h Hp) as Hsplit.
  rewrite (Initialize_dial_ok_eq env o _ p h d Hsafe Hsplit Hd). cbn [final].
  destruct (before_dial_fields (String.append p (String ":" h)) p h o)
    as (_ & Hpn & Hrh & _ & _ & Hdc & _).
  unfold Statistics, marked.
  destruct (before_dial _ p h o); cbn in *. subst.
  destruct (_ =? _); reflexivity.
Qed.

Lemma Statistics_after_successful_Initialize_witness :
  close_is_safe sink_dropped /\
  GoStrings.Index "udp" ":" = None /\
  dial env_up "udp" "10.0.0.1:514" = inl 3%nat /\
  Statistics (final (Initialize "udp:10.0.0.1:514" env_up sink_dropped)) =
    {| LastOpenTime := now env_up;
       Protocol := "udp";
       RemoteHostname := "10.0.0.1:514";
       DroppedEventCount := droppedEventCount sink_dropped;
       Connected := true |}.
Proof.
  assert (H : close_is_safe sink_dropped) by (intros H; discriminate H).
  split; [exact H|]. split; [reflexivity|]. split; [reflexivity|].
  exact (Statistics_after_successful_Initialize env_up sink_dropped
           "udp" "10.0.0.1:514" 3%nat H eq_refl eq_refl).
Defined.

(** ** From a failed write to the drops that follow *)

(** X19: when the write of a message fails on a connected, configured sink,
    the messages received after it are all dropped: over the whole run the
    transport sees the single failed write and one close, the loop keeps
    running, the sink ends disconnected, and the drop counter has grown by
    the number of messages that followed the failed one, which itself is
    not counted. *)
Theorem loop_drops_everything_after_a_failed_write
    (env : Env) (m : string) (ems : list (Env * string))
    (o : NetOutput) (c : Conn) (e : error) (cfg : Configuration) :
  Config o = Some cfg ->
  connected o = true ->
  outputSocket o = Some c ->
  Conn_Write env c (framed o m) = Some e ->
  Int64.min_int <= droppedEventCount o ->
  droppedEventCount o + Z.of_nat (List.length ems) <= Int64.max_int ->
  let r := loop (messages ((env, m) :: ems)) o in
  result r = Ok false /\
  writes (events r) = [EvWrite (fd c) (framed o m)] /\
  filter is_close (events r) = [EvClose (fd c)] /\
  connected (final r) = false /\
  droppedEventCount (final r)
    = droppedEventCount o + Z.of_nat (List.length ems).
Proof.
  intros Hcfg Hc Hs Hw Hlo Hhi r. subst r.
  cbn [messages map loop fst snd]. fold (messages ems).
  rewrite loop_iteration_message_cases.
  rewrite (output_write_failed_eq env o m c e Hc Hs Hw).
  set (o1 := rescheduled (now env) o).
  assert (Ho1 : Config o1 = Some cfg /\ connected o1 = false /\
                droppedEventCount o1 = droppedEventCount o).
  { subst o1. unfold rescheduled, previous_closed. rewrite Hc, Hs.
    destruct o; cbn in *. auto. }
  destruct Ho1 as (Hcfg1 & Hc1 & Hdc1). rewrite Hcfg1.
  rewrite (loop_messages_disconnected_eq ems o1 Hc1)
    by (rewrite Hdc1; assumption).
  cbn [result final events]. rewrite Hdc1.
  repeat apply conj.
  - reflexivity.
  - destruct (DryRun cfg); reflexivity.
  - destruct (DryRun cfg); reflexivity.
  - destruct o1; exact Hc1.
  - destruct o1; reflexivity.
Qed.

Lemma loop_drops_everything_after_a_failed_write_witness :
  Config sink_tcp = Some {| DryRun := false |} /\
  connected sink_tcp = true /\
  outputSocket sink_tcp = Some {| fd := 3; closed := false |} /\
  Conn_Write env_down {| fd := 3; closed := false |} (framed sink_tcp "a")
    = Some (NetError "broken pipe") /\
  Int64.min_int <= droppedEventCount sink_tcp /\
  droppedEventCount sink_tcp
    + Z.of_nat (List.length [(env_up, "b"%string); (env_up, "c"%string)])
    <= Int64.max_int /\
  let r := loop (messages ((env_down, "a"%string)
                             :: [(env_up, "b"%string); (env_up, "c"%string)]))
             sink_tcp in
  result r = Ok false /\
  writes (events r)
    = [EvWrite (fd {| fd := 3; closed := false |}) (framed sink_tcp "a")] /\
  filter is_close (events r) = [EvClose (fd {| fd := 3; closed := false |})] /\
  connected (final r) = false /\
  droppedEventCount (final r)
    = droppedEventCount sink_tcp
      + Z.of_nat (List.length [(env_up, "b"%string); (env_up, "c"%string)]).
Proof.
  assert (H5 : Int64.min_int <= droppedEventCount sink_tcp)
    by (vm_compute; intros H; discriminate H).
  assert (H6 : droppedEventCount sink_tcp
    + Z.of_nat (List.length [(env_up, "b"%string); (env_up, "c"%string)])
    <= Int64.max_int)
    by (vm_compute; intros H; discriminate H).
  split; [reflexivity|]. split; [reflexivity|]. split; [reflexivity|].
  split; [reflexivity|]. split; [exact H5|]. split; [exact H6|].
  exact (loop_drops_everything_after_a_failed_write env_down "a"
           [(env_up, "b"%string); (env_up, "c"%string)] sink_tcp
           {| fd := 3; closed := false |} (NetError "broken pipe")
           {| DryRun := false |} eq_refl eq_refl eq_refl eq_refl H5 H6).
Defined.

(** ** Dry-run mode and the invariant, over whole runs *)

(** X20: the dry-run flag has no influence on what a run of the control loop
    does to the sink or to the transport: for any receptions, two sinks that
    differ only in their configuration end with the same result and the same
    fields ([Config] apart), and their traces are equal once the error-log
    lines are left out. *)
Theorem loop_run_is_independent_of_DryRun
    (rs : list (Env * Received)) (o : NetOutput) (cfg cfg' : Configuration) :
  let r := loop rs (set_Config (Some cfg) o) in
  let r' := loop rs (set_Config (Some cfg') o) in
  result r = result r' /\
  set_Config None (final r) = set_Config None (final r') /\
  without_error_log (events r) = without_error_log (events r').
Proof.
  cbv zeta.
  destruct (loop_DryRun rs o cfg cfg') as (b & o1 & t & t' & -> & -> & Ht).
  cbn [result final events]. repeat apply conj.
  - reflexivity.
  - destruct o1; reflexivity.
  - exact Ht.
Qed.

(** X21: called on a disconnected sink, [Initialize] keeps the data-model
    invariant whatever the specification and whatever the dial answers: the
    sink ends connected only when the call returned no error, and then with
    a handle that is open; after a returned error or a panic it is still
    disconnected. *)
Theorem Initialize_on_disconnected_sink_is_safe
    (env : Env) (o : NetOutput) (spec : string) :
  connected o = false ->
  let r := Initialize spec env o in
  connected_implies_valid (final r) /\
  (connected (final r) = true <-> result r = Ok None) /\
  (result r = Ok None -> handle_valid (final r)).
Proof.
  intros Hc r. subst r.
  pose proof (Initialize_from_disconnected_preserves_invariant env o spec Hc)
    as Hinv.
  pose proof (close_is_safe_disconnected o Hc) as Hsafe.
  assert (Hiff : connected (final (Initialize spec env o)) = true
                 <-> result (Initialize spec env o) = Ok None).
  { destruct (SplitN_2_shape spec) as [Hsplit | (p & h & Hsplit)].
    - rewrite (Initialize_one_part_eq env o spec spec Hsafe Hsplit).
      cbn [result final]. unfold previous_closed. rewrite Hc.
      destruct o; cbn in *. split; intros H; [congruence|discriminate H].
    - destruct (before_dial_fields spec p h o) as (_ & _ & _ & _ & Hcb & _).
      destruct (dial env p h) as [d|e] eqn:Hd.
      + rewrite (Initialize_dial_ok_eq env o spec p h d Hsafe Hsplit Hd).
        cbn [result final]. unfold marked.
        destruct (before_dial spec p h o); cbn. destruct (_ =? _); cbn;
          split; reflexivity.
      + rewrite (Initialize_dial_failed_eq env o spec p h e Hsafe Hsplit Hd).
        cbn [result final].
        destruct (before_dial spec p h o); cbn in *.
        split; intros H; [congruence|discriminate H]. }
  repeat apply conj.
  - exact Hinv.
  - apply Hiff.
  - apply Hiff.
  - intros Hok. apply Hinv. now apply Hiff.
Qed.

Lemma Initialize_on_disconnected_sink_is_safe_witness :
  connected sink_lost = false /\
  let r := Initialize "localhost" env_up sink_lost in
  connected_implies_valid (final r) /\
  (connected (final r) = true <-> result r = Ok None) /\
  (result r = Ok None -> handle_valid (final r)).
Proof.
  split; [reflexivity|].
  exact (Initialize_on_disconnected_sink_is_safe env_up sink_lost "localhost"
           eq_refl).
Defined.

(** ** The drop counter of the sinks the code can reach *)

(** A call leaves the drop counter as it is or adds one to it. *)
Lemma after_call_counter (c : Call) (env : Env) (o : NetOutput) :
  droppedEventCount (after_call c env o) = droppedEventCount o \/
  droppedEventCount (after_call c env o) = Int64.add (droppedEventCount o) 1.
Proof.
  destruct c as [spec|m| | |r]; cbn [after_call].
  - left. apply Initialize_frame.
  - destruct (output_frame env o m) as (_ & _ & _ & _ & _ & _ & _ & H).
    destruct H as [H|[_ H]]; auto.
  - left. apply closeAndScheduleReconnection_frame.
  - left. rewrite Go_eq. destruct (outputSocket o); reflexivity.
  - destruct (loop_iteration_frame env r o) as (_ & _ & _ & H).
    destruct H as [H|(_ & _ & H)]; auto.
Qed.

(** After [n] calls the counter has grown by at most [n]. *)
Lemma after_calls_counter (cs : list (Env * Call)) :
  forall o,
  Int64.min_int <= droppedEventCount o ->
  droppedEventCount o + Z.of_nat (List.length cs) <= Int64.max_int ->
  droppedEventCount o <= droppedEventCount (after_calls cs o)
    <= droppedEventCount o + Z.of_nat (List.length cs).
Proof.
  induction cs as [|[env c] cs IH]; intros o Hlo Hhi.
  - cbn. lia.
  - cbn [after_calls List.length] in *. rewrite Nat2Z.inj_succ in *.
    assert (Hstep : droppedEventCount o
                      <= droppedEventCount (after_call c env o)
                      <= droppedEventCount o + 1).
    { destruct (after_call_counter c env o) as [->| ->]; [lia|].
      rewrite Int64_add_one; lia. }
    specialize (IH (after_call c env o) ltac:(lia) ltac:(lia)). lia.
Qed.

(** The range condition of the drop policy holds on every sink reached from
    a new one by fewer than 2^63-1 calls: there, a message offered to a
    disconnected sink makes the counter exactly one more. *)
Lemma output_drop_on_reachable_sink
    (cfg : option Configuration) (cs : list (Env * Call))
    (env : Env) (m : string) :
  Z.of_nat (List.length cs) < Int64.max_int ->
  let o := after_calls cs (NewNetOutputfromConfig cfg) in
  0 <= droppedEventCount o < Int64.max_int /\
  (connected o = false ->
   droppedEventCount (final (output m env o)) = droppedEventCount o + 1).
Proof.
  intros Hlen o.
  assert (Hb : 0 <= droppedEventCount o <= 0 + Z.of_nat (List.length cs)).
  { subst o. apply (after_calls_counter cs (NewNetOutputfromConfig cfg)).
    - vm_compute. intros H; discriminate H.
    - cbn [NewNetOutputfromConfig droppedEventCount]. lia. }
  split; [lia|]. intros Hc.
  rewrite (output_disconnected_eq env o m Hc). cbn [final].
  replace (droppedEventCount
             (set_droppedEventCount (Int64.add (droppedEventCount o) 1) o))
    with (Int64.add (droppedEventCount o) 1) by (destruct o; reflexivity).
  apply Int64_add_one. unfold Int64.min_int. lia.
Qed.
